(** * desidict: a crowdsourced dictionary (Flask handlers over a MongoDB store)

    Shallow embedding of [src/desidict.py].  The two collections [db.words]
    and [db.users] are lists of documents in natural (insertion) order, the
    cookie session is a finite map from keys to strings, and every route
    handler is a computation in a small state-and-exception monad: a raised
    exception keeps the writes that were made before it, as the store has no
    transactions. *)

From Stdlib Require Import ZArith NArith Ascii String DecimalString.
From stdpp Require Import base tactics option list sorting gmap strings.

Local Open Scope string_scope.
Local Open Scope Z_scope.

(** ** Documents *)

Inductive Status := pending | approved | declined.

Global Instance Status_eq_dec : EqDecision Status.
Proof. solve_decision. Defined.

(** A document of [db.words]; [_id] is the 12-byte ObjectId read as a
    big-endian number, [postedDate] a point in time. *)
Record Word := {
  _id : N;
  word : string;
  definition : string;
  email : string;
  userHandle : string;
  upvote : Z;
  downvote : Z;
  status : Status;
  authorID : string;
  postedDate : Z;
  languages : string;
  partofspeech : string;
  gender : string;
  conjugates : string;
  usageexample : string;
  synonyms : string;
  antonyms : string;
  region : string;
  zipcode : string
}.

(** A document of [db.users]; [upvotes] and [downvotes] hold the word ids as
    the strings that came with the vote requests, [words_author] holds
    ObjectIds. *)
Record User := {
  name : string;
  user_email : string;
  google_id : string;
  picture : string;
  email_verified : bool;
  words_author : list N;
  upvotes : list string;
  downvotes : list string
}.

Record Db := { words : list Word; users : list User }.

(** The session cookie.  Its values are strings, except [email_verified],
    which is never read back and is kept as the text of the boolean. *)
Record State := { db : Db; session : gmap string string }.

Inductive Exn :=
| KeyError (key : string)
| IndexError
| ValueError
| AttributeError
| InvalidId
| OperationFailure
| DuplicateKeyError
| HTTPException (code : Z).

(** A listed word, with the two annotations a logged-in viewer gets. *)
Record Item := {
  doc : Word;
  upvote_status : option bool;
  downvote_status : option bool
}.

Record Page := {
  json_words : list Item;
  totalPages : Z;
  pageNo : Z;
  next_page : string;
  prev_page : string
}.

Inductive Response :=
| redirect (location : string)
| render_template (template : string)
| render_home (page : Page)
| render_dashboard (pending_words : list Word).

(** ** The handler monad *)

Inductive Result (A : Type) :=
| Ok (a : A)
| Raise (e : Exn).
Arguments Ok {A} a.
Arguments Raise {A} e.

(** A handler takes the state it finds to the state it leaves and to what
    it returns or raises.  After a [Raise] the store part of the state is
    what the failed request has written, which stays written; the session
    part is the session as the handler held it, which a client gets back
    only with an answer that carries the cookie. *)
Definition M (A : Type) : Type := State → State * Result A.

Global Instance M_ret : MRet M := λ A a st, (st, Ok a).

Global Instance M_bind : MBind M := λ A B f m st,
  match m st with
  | (st', Ok a) => f a st'
  | (st', Raise e) => (st', Raise e)
  end.

Definition raise {A} (e : Exn) : M A := λ st, (st, Raise e).

(** [try: body except: handler] with a bare [except]. *)
Definition try_except {A} (body handler : M A) : M A := λ st,
  match body st with
  | (st', Ok a) => (st', Ok a)
  | (st', Raise _) => handler st'
  end.

Definition get_session : M (gmap string string) := λ st, (st, Ok (session st)).
Definition get_db : M Db := λ st, (st, Ok (db st)).
Definition put_session (s : gmap string string) : M unit := λ st,
  ({| db := db st; session := s |}, Ok tt).
Definition put_db (d : Db) : M unit := λ st,
  ({| db := d; session := session st |}, Ok tt).

(** [key in session], [session[key]], [session[key] = v], [session.clear()] *)
Definition session_contains (key : string) : M bool :=
  s ← get_session; mret (bool_decide (is_Some (s !! key))).
Definition session_get (key : string) : M string :=
  s ← get_session;
  match s !! key with
  | Some v => mret v
  | None => raise (KeyError key)
  end.
Definition session_set (key v : string) : M unit :=
  s ← get_session; put_session (<[key := v]> s).
Definition session_clear : M unit := put_session ∅.

(** ** ObjectId *)

Definition hex_digit (c : ascii) : option N :=
  let n := N_of_ascii c in
  if ((48 <=? n) && (n <=? 57))%N then Some (n - 48)%N
  else if ((97 <=? n) && (n <=? 102))%N then Some (n - 87)%N
  else if ((65 <=? n) && (n <=? 70))%N then Some (n - 55)%N
  else None.

Fixpoint hex_value (acc : N) (s : string) : option N :=
  match s with
  | EmptyString => Some acc
  | String c s' =>
      match hex_digit c with
      | Some d => hex_value (16 * acc + d)%N s'
      | None => None
      end
  end.

(** [ObjectId(word_id)] of bson: a string of 24 hexadecimal digits, in either
    case, or else [InvalidId].  A text of 24 characters with blanks between
    pairs of digits, which bson reads as an id of fewer than 12 bytes that
    addresses no stored document, is not covered: [parse_oid] refuses
    it. *)
Definition parse_oid (word_id : string) : option N :=
  if (String.length word_id =? 24)%nat then hex_value 0 word_id else None.

Definition ObjectId (word_id : string) : M N :=
  match parse_oid word_id with
  | Some oid => mret oid
  | None => raise InvalidId
  end.

Definition hex_char (d : N) : ascii :=
  if (d <? 10)%N then ascii_of_N (48 + d) else ascii_of_N (87 + d).

Fixpoint hex_string (digits : nat) (v : N) (acc : string) : string :=
  match digits with
  | O => acc
  | S n => hex_string n (v / 16)%N (String (hex_char (v mod 16)%N) acc)
  end.

(** [str(oid)]: 24 lower-case hexadecimal digits. *)
Definition str_oid (oid : N) : string := hex_string 24 oid "".

(** [str(n)] and [int(s)] on integers in decimal.  [parse_int] reads an
    optional minus sign followed by digits, where it agrees with [int]; the
    other spellings [int] accepts (a plus sign, blanks around the number,
    underscores between digits) are not covered and count as [ValueError]. *)
Definition str (n : Z) : string := NilZero.string_of_int (Z.to_int n).

Definition parse_int (s : string) : option Z :=
  Z.of_int <$> NilZero.int_of_string s.

Definition int (s : string) : M Z :=
  match parse_int s with
  | Some n => mret n
  | None => raise ValueError
  end.

(** [math.ceil(n / limit)]: the quotient by 8 or by 2 is exact in floating
    point, so this is the ceiling of the rational quotient. *)
Definition math_ceil_div (n limit : Z) : Z := - ((- n) / limit).

(** ** The document store *)

(** [update_one]: the first document that matches the filter is updated;
    with no match nothing is written. *)
Fixpoint update_one {A} (matches : A → bool) (update : A → A)
    (coll : list A) : list A :=
  match coll with
  | [] => []
  | d :: rest =>
      if matches d then update d :: rest
      else d :: update_one matches update rest
  end.

Definition has_id (oid : N) (w : Word) : bool := bool_decide (_id w = oid).
Definition has_google_id (gid : string) (u : User) : bool :=
  bool_decide (google_id u = gid).

(** [{'$inc': {"upvote": n}}], [{'$inc': {"downvote": n}}] and
    [{'$set': {"status": s}}] *)
Definition inc_upvote (n : Z) (w : Word) : Word :=
  {| _id := _id w; word := word w; definition := definition w;
     email := email w; userHandle := userHandle w;
     upvote := upvote w + n; downvote := downvote w; status := status w;
     authorID := authorID w; postedDate := postedDate w;
     languages := languages w; partofspeech := partofspeech w;
     gender := gender w; conjugates := conjugates w;
     usageexample := usageexample w; synonyms := synonyms w;
     antonyms := antonyms w; region := region w; zipcode := zipcode w |}.

Definition inc_downvote (n : Z) (w : Word) : Word :=
  {| _id := _id w; word := word w; definition := definition w;
     email := email w; userHandle := userHandle w;
     upvote := upvote w; downvote := downvote w + n; status := status w;
     authorID := authorID w; postedDate := postedDate w;
     languages := languages w; partofspeech := partofspeech w;
     gender := gender w; conjugates := conjugates w;
     usageexample := usageexample w; synonyms := synonyms w;
     antonyms := antonyms w; region := region w; zipcode := zipcode w |}.

Definition set_status (s : Status) (w : Word) : Word :=
  {| _id := _id w; word := word w; definition := definition w;
     email := email w; userHandle := userHandle w;
     upvote := upvote w; downvote := downvote w; status := s;
     authorID := authorID w; postedDate := postedDate w;
     languages := languages w; partofspeech := partofspeech w;
     gender := gender w; conjugates := conjugates w;
     usageexample := usageexample w; synonyms := synonyms w;
     antonyms := antonyms w; region := region w; zipcode := zipcode w |}.

(** The array operators [$addToSet], [$pull] and [$push]. *)
Definition addToSet (x : string) (arr : list string) : list string :=
  if bool_decide (x ∈ arr) then arr else arr ++ [x].

Definition pull (x : string) (arr : list string) : list string :=
  filter (λ y, y ≠ x) arr.

Definition set_upvotes (f : list string → list string) (u : User) : User :=
  {| name := name u; user_email := user_email u; google_id := google_id u;
     picture := picture u; email_verified := email_verified u;
     words_author := words_author u;
     upvotes := f (upvotes u); downvotes := downvotes u |}.

Definition set_downvotes (f : list string → list string) (u : User) : User :=
  {| name := name u; user_email := user_email u; google_id := google_id u;
     picture := picture u; email_verified := email_verified u;
     words_author := words_author u;
     upvotes := upvotes u; downvotes := f (downvotes u) |}.

Definition push_words_author (oid : N) (u : User) : User :=
  {| name := name u; user_email := user_email u; google_id := google_id u;
     picture := picture u; email_verified := email_verified u;
     words_author := words_author u ++ [oid];
     upvotes := upvotes u; downvotes := downvotes u |}.

Definition words_update_one (oid : N) (update : Word → Word) : M unit :=
  d ← get_db;
  put_db {| words := update_one (has_id oid) update (words d);
            users := users d |}.

Definition users_update_one (gid : string) (update : User → User) : M unit :=
  d ← get_db;
  put_db {| words := words d;
            users := update_one (has_google_id gid) update (users d) |}.

Definition words_find (P : Word → Prop) `{∀ w, Decision (P w)}
    : M (list Word) :=
  d ← get_db; mret (filter P (words d)).

Definition users_find (gid : string) : M (list User) :=
  d ← get_db; mret (filter (λ u, google_id u = gid) (users d)).

(** [insert_one] with the ObjectId the driver generated for the document;
    the unique index on [_id] refuses an id that is already there. *)
Definition words_insert_one (json : Word) : M unit :=
  d ← get_db;
  if existsb (has_id (_id json)) (words d) then raise DuplicateKeyError
  else put_db {| words := words d ++ [json]; users := users d |}.

Definition users_insert_one (json : User) : M unit :=
  d ← get_db;
  put_db {| words := words d; users := users d ++ [json] |}.

(** [l[0]] *)
Definition first {A} (l : list A) : M A :=
  match l with
  | x :: _ => mret x
  | [] => raise IndexError
  end.

(** The order of [{"upvote": DESCENDING, "_id": DESCENDING}]: [by_votes a b]
    when [a] may come before [b]. *)
Definition by_votes (a b : Word) : Prop :=
  upvote b < upvote a ∨ (upvote a = upvote b ∧ (_id b ≤ _id a)%N).

Global Instance by_votes_dec : RelDecision by_votes.
Proof. intros a b. unfold by_votes. apply _. Defined.

(** The order of [{"upvote": DESCENDING}] alone. *)
Definition by_upvote (a b : Word) : Prop := upvote b ≤ upvote a.

Global Instance by_upvote_dec : RelDecision by_upvote.
Proof. intros a b. unfold by_upvote. apply _. Defined.

(** The order of [sort=[('_id', -1)]]. *)
Definition by_id (a b : Word) : Prop := (_id b ≤ _id a)%N.

Global Instance by_id_dec : RelDecision by_id.
Proof. intros a b. unfold by_id. apply _. Defined.

Definition is_approved (w : Word) : Prop := status w = approved.
Definition is_pending (w : Word) : Prop := status w = pending.

Global Instance is_approved_dec w : Decision (is_approved w).
Proof. unfold is_approved. apply _. Defined.

Global Instance is_pending_dec w : Decision (is_pending w).
Proof. unfold is_pending. apply _. Defined.

(** [{"$skip": offset}, {"$limit": limit}]; the server refuses a negative
    [$skip]. *)
Definition skip_limit (offset limit : Z) (docs : list Word) : M (list Word) :=
  if offset <? 0 then raise OperationFailure
  else mret (take (Z.to_nat limit) (drop (Z.to_nat offset) docs)).

(** ** Requests *)

(** [request.form[key]] *)
Definition form_get (form : gmap string string) (key : string) : M string :=
  match form !! key with
  | Some v => mret v
  | None => raise (KeyError key)
  end.

Definition lower_ascii (c : ascii) : ascii :=
  let n := N_of_ascii c in
  if ((65 <=? n) && (n <=? 90))%N then ascii_of_N (n + 32) else c.

(** [s.lower()], on ASCII letters *)
Fixpoint lower (s : string) : string :=
  match s with
  | EmptyString => EmptyString
  | String c s' => String (lower_ascii c) (lower s')
  end.

(** The identity claims of a verified token. *)
Record IdInfo := {
  sub : string;
  id_name : string;
  id_email : string;
  id_picture : string;
  id_email_verified : bool
}.

Definition str_bool (b : bool) : string := if b then "True" else "False".

(** ** Route handlers *)

Definition login_is_required (function : M Response) : M Response :=
  logged_in ← session_contains "google_id";
  if negb logged_in then mret (render_template "unauthorized.html")
  else function.

Definition loginpage : M Response := mret (render_template "login.html").

(** [authorization_url] and [state] are what the OAuth flow hands out. *)
Definition userlogin (authorization_url state : string) : M Response :=
  session_set "state" state;;
  mret (redirect authorization_url).

(** [/user/callback], from the point where the token has been fetched and
    verified: [args_state] is [request.args["state"]]. *)
Definition callback (args_state : option string) (id_info : IdInfo)
    : M Response :=
  state ← session_get "state";
  arg ← match args_state with
        | Some a => mret a
        | None => raise (HTTPException 400)
        end;
  (if negb (bool_decide (state = arg)) then raise (HTTPException 500)
   else mret tt);;
  session_set "google_id" (sub id_info);;
  session_set "name" (id_name id_info);;
  session_set "email" (id_email id_info);;
  session_set "picture" (id_picture id_info);;
  session_set "email_verified" (str_bool (id_email_verified id_info));;
  known ← users_find (sub id_info);
  match known with
  | [] =>
      users_insert_one
        {| name := id_name id_info; user_email := id_email id_info;
           google_id := sub id_info; picture := id_picture id_info;
           email_verified := id_email_verified id_info;
           words_author := []; upvotes := []; downvotes := [] |}
  | _ :: _ => mret tt
  end;;
  mret (redirect "/user/protected_area").

Definition userlogout : M Response :=
  session_clear;;
  mret (redirect "/user").

(** [flash] queues its message under a session key of its own, which no
    handler reads; the queue is left out. *)
Definition protected_area : M Response :=
  login_is_required (
    has_url ← session_contains "url";
    if negb has_url then mret (redirect "/")
    else url ← session_get "url"; mret (redirect url)).

(** The aggregation of the home page: sort, keep the approved, skip, limit. *)
Definition sort_match_approved (coll : list Word) : list Word :=
  filter is_approved (merge_sort by_votes coll).

Definition approved_page (offset limit : Z) : M (list Word) :=
  d ← get_db;
  skip_limit offset limit (sort_match_approved (words d)).

Definition plain (w : Word) : Item :=
  {| doc := w; upvote_status := None; downvote_status := None |}.

Definition annotate (user_upvotes user_downvotes : list string) (w : Word)
    : Item :=
  let x := str_oid (_id w) in
  {| doc := w;
     upvote_status := Some (bool_decide (x ∈ user_upvotes));
     downvote_status := Some (bool_decide (x ∈ user_downvotes)) |}.

(** [/], with [page] the query parameter [request.args.get('page')]. *)
Definition get_words (page : option string) : M Response :=
  match page with
  | Some p => session_set "url" ("/?page=" +:+ p)
  | None => session_set "url" "/"
  end;;
  let limit := 8 in
  pageNo ← match page with
           | None => mret 1
           | Some p => int p
           end;
  let offset := (pageNo - 1) * limit in
  word_order ← words_find is_approved;
  let totalPages := math_ceil_div (Z.of_nat (length word_order)) limit in
  logged_in ← session_contains "google_id";
  outputWords ←
    (if negb logged_in then
       outputWords ← approved_page offset limit;
       mret (plain <$> outputWords)
     else
       gid ← session_get "google_id";
       found ← users_find gid;
       u ← first found;
       let user_upvotes := upvotes u in
       found ← users_find gid;
       u ← first found;
       let user_downvotes := downvotes u in
       outputWords ← approved_page offset limit;
       mret (annotate user_upvotes user_downvotes <$> outputWords));
  mret (render_home
    {| json_words := outputWords; totalPages := totalPages;
       pageNo := pageNo;
       next_page := "?page=" +:+ str (pageNo + 1);
       prev_page := "?page=" +:+ str (pageNo - 1) |}).

(** [/postword]: [now] is [datetime.now()] and [oid] the ObjectId generated
    for the inserted document. *)
Definition postword (form : gmap string string) (now : Z) (oid : N)
    : M Response :=
  session_set "url" "/addword";;
  try_except (
    word ← form_get form "word";
    language ← form_get form "language";
    partofspeech ← form_get form "part_of_speech";
    gender ← form_get form "gender";
    conjugates ← form_get form "conjugates";
    usageexample ← form_get form "usage_example";
    synonyms ← form_get form "synonyms";
    antonyms ← form_get form "antonyms";
    region ← form_get form "region";
    zipcode ← form_get form "uploaded_zip_code";
    definition ← form_get form "def";
    let anonCheck := form !! "anonCheck" in
    authorID ← session_get "google_id";
    userHandle ←
      (if bool_decide (anonCheck = Some "anonTrue") then mret "Anonymous"
       else session_get "name");
    email ← session_get "email";
    let json :=
      {| _id := oid; word := word; definition := definition;
         email := email; userHandle := userHandle;
         upvote := 0; downvote := 0; status := pending;
         authorID := authorID; postedDate := now;
         languages := language; partofspeech := partofspeech;
         gender := gender; conjugates := conjugates;
         usageexample := usageexample; synonyms := synonyms;
         antonyms := antonyms; region := region; zipcode := zipcode |} in
    words_insert_one json;;
    d ← get_db;
    let word_id := take 1 (merge_sort by_id (words d)) in
    w0 ← first word_id;
    users_update_one authorID (push_words_author (_id w0));;
    mret (redirect "/addword"))
  (mret (redirect "/addword")).

Definition upvote_word (word_id : string) : M Response :=
  logged_in ← session_contains "google_id";
  if negb logged_in then mret (redirect "/user")
  else
    oid ← ObjectId word_id;
    words_update_one oid (inc_upvote 1);;
    gid ← session_get "google_id";
    users_update_one gid (set_upvotes (addToSet word_id));;
    url ← session_get "url";
    mret (redirect url).

(** The two undo handlers have no session check: the one of [upvote_word]
    is commented out in them. *)
Definition undo_upvote (word_id : string) : M Response :=
  oid ← ObjectId word_id;
  words_update_one oid (inc_upvote (-1));;
  gid ← session_get "google_id";
  users_update_one gid (set_upvotes (pull word_id));;
  url ← session_get "url";
  mret (redirect url).

Definition undo_downvote (word_id : string) : M Response :=
  oid ← ObjectId word_id;
  words_update_one oid (inc_downvote (-1));;
  gid ← session_get "google_id";
  users_update_one gid (set_downvotes (pull word_id));;
  url ← session_get "url";
  mret (redirect url).

Definition downvote_word (word_id : string) : M Response :=
  logged_in ← session_contains "google_id";
  if negb logged_in then mret (redirect "/user")
  else
    oid ← ObjectId word_id;
    words_update_one oid (inc_downvote 1);;
    gid ← session_get "google_id";
    users_update_one gid (set_downvotes (addToSet word_id));;
    url ← session_get "url";
    mret (redirect url).

Definition word_form : M Response :=
  login_is_required (mret (render_template "addword.html")).

Definition dash : M Response :=
  words ← words_find is_pending;
  mret (render_dashboard words).

(** [/adminDashboard/<action>/<word_id>/].  The lookup before each update
    yields a list, which is never [None], so the update is always issued. *)
Definition approve_word (action word_id : string) : M Response :=
  oid ← ObjectId word_id;
  (if bool_decide (action = "approve") then
     id ← words_find (λ w, _id w = oid);
     words_update_one oid (set_status approved)
   else mret tt);;
  (if bool_decide (action = "decline") then
     id ← words_find (λ w, _id w = oid);
     words_update_one oid (set_status declined)
   else mret tt);;
  mret (redirect "/adminDashboard").

Section TextIndex.

(** The full-text index of the store: [text_search q w] when the document
    [w] matches [{'$text': {'$search': q}}]. *)
Variable text_search : string → Word → bool.

(** [/search/], with the query parameters [search] and [page].  The list
    [word_order] is never [None], so the last branch of the source is never
    taken. *)
Definition search (search_arg page : option string) : M Response :=
  searchString ← match search_arg with
                 | Some s => mret (lower s)
                 | None => raise AttributeError
                 end;
  let limit := 2 in
  pageNo ← match page with
           | None => mret 1
           | Some p => int p
           end;
  let offset := (pageNo - 1) * limit in
  d ← get_db;
  let word_order :=
    merge_sort by_upvote
      (filter (λ w, text_search searchString w) (words d)) in
  let totalPages := math_ceil_div (Z.of_nat (length word_order)) limit in
  d ← get_db;
  outputWords ←
    skip_limit offset limit
      (merge_sort by_votes
         (filter (λ w, is_approved w ∧ text_search searchString w)
            (words d)));
  mret (render_home
    {| json_words := plain <$> outputWords; totalPages := totalPages;
       pageNo := pageNo;
       next_page := "?search=" +:+ searchString +:+ "?page="
                    +:+ str (pageNo + 1);
       prev_page := "?search=" +:+ searchString +:+ "?page="
                    +:+ str (pageNo - 1) |}).

(** ** Requests and runs *)

Inductive Request :=
  | GET_user
  | GET_user_login (authorization_url state : string)
  | GET_user_callback (args_state : option string) (id_info : IdInfo)
  | GET_user_logout
  | GET_user_protected_area
  | GET_home (page : option string)
  | POST_postword (form : gmap string string) (now : Z) (oid : N)
  | POST_upvote (word_id : string)
  | POST_undo_upvote (word_id : string)
  | POST_undo_downvote (word_id : string)
  | POST_downvote (word_id : string)
  | GET_addword
  | GET_adminDashboard
  | GET_search (search_arg page : option string)
  | POST_adminDashboard (action word_id : string).

Definition handle (r : Request) : M Response :=
  match r with
  | GET_user => loginpage
  | GET_user_login authorization_url state =>
      userlogin authorization_url state
  | GET_user_callback args_state id_info => callback args_state id_info
  | GET_user_logout => userlogout
  | GET_user_protected_area => protected_area
  | GET_home page => get_words page
  | POST_postword form now oid => postword form now oid
  | POST_upvote word_id => upvote_word word_id
  | POST_undo_upvote word_id => undo_upvote word_id
  | POST_undo_downvote word_id => undo_downvote word_id
  | POST_downvote word_id => downvote_word word_id
  | GET_addword => word_form
  | GET_adminDashboard => dash
  | GET_search search_arg page => search search_arg page
  | POST_adminDashboard action word_id => approve_word action word_id
  end.

(** The state after a request, and after a sequence of requests. *)
Definition after (r : Request) (st : State) : State := (handle r st).1.

Definition run (rs : list Request) (st : State) : State :=
  foldl (λ st r, after r st) st rs.

End TextIndex.

(** ** Reading the store *)

(** The document a filter on [_id] or on [google_id] addresses. *)
Definition find_word (oid : N) (st : State) : option Word :=
  List.find (has_id oid) (words (db st)).

Definition find_user (gid : string) (st : State) : option User :=
  List.find (has_google_id gid) (users (db st)).

Definition logged_in_as (gid : string) (st : State) : Prop :=
  session st !! "google_id" = Some gid.

Definition logged_out (st : State) : Prop :=
  session st !! "google_id" = None.

(** ** The vote handlers as state transformers *)

(** The two writes of a vote handler: one on the word, one on the user. *)
Definition vote_writes (oid : N) (on_word : Word → Word)
    (gid : string) (on_user : User → User) (st : State) : State :=
  {| db := {| words := update_one (has_id oid) on_word (words (db st));
              users := update_one (has_google_id gid) on_user
                         (users (db st)) |};
     session := session st |}.

(** Only the first write, on the word. *)
Definition word_write (oid : N) (on_word : Word → Word) (st : State) : State :=
  {| db := {| words := update_one (has_id oid) on_word (words (db st));
              users := users (db st) |};
     session := session st |}.

(** ** Invariants of handlers *)

(** [preserves I m]: the computation [m] keeps the state property [I],
    whether it returns or raises. *)
Definition preserves {A} (I : State → Prop) (m : M A) : Prop :=
  ∀ st, I st → I (m st).1.

(** A property of the [words] collection alone. *)
Definition on_words (J : list Word → Prop) : State → Prop :=
  λ st, J (words (db st)).

(** A property of the [users] collection alone. *)
Definition on_users (J : list User → Prop) : State → Prop :=
  λ st, J (users (db st)).

(** ** Vote counters *)

Definition counters_ok (w : Word) : Prop := 0 ≤ upvote w ∧ 0 ≤ downvote w.

Global Instance counters_ok_dec w : Decision (counters_ok w).
Proof. unfold counters_ok. apply _. Defined.

Definition counters_nonneg (st : State) : Prop :=
  on_words (Forall counters_ok) st.

Global Instance counters_nonneg_dec st : Decision (counters_nonneg st).
Proof. unfold counters_nonneg, on_words. apply _. Defined.

Definition is_undo (r : Request) : bool :=
  match r with
  | POST_undo_upvote _ | POST_undo_downvote _ => true
  | _ => false
  end.

(** Sample documents and states. *)
Definition sample_word (oid : N) (up down : Z) (s : Status) : Word :=
  {| _id := oid; word := "jugaad"; definition := "a clever fix";
     email := "asha@example.org"; userHandle := "Asha";
     upvote := up; downvote := down; status := s;
     authorID := "g-asha"; postedDate := 0;
     languages := "hindi"; partofspeech := "noun"; gender := "";
     conjugates := ""; usageexample := ""; synonyms := ""; antonyms := "";
     region := ""; zipcode := "" |}.

Definition sample_user (gid : string) (ups downs : list string) : User :=
  {| name := "Asha"; user_email := "asha@example.org"; google_id := gid;
     picture := ""; email_verified := true; words_author := [];
     upvotes := ups; downvotes := downs |}.

Definition sample_id : string := "000000000000000000000001".

Definition session_of (gid : string) : gmap string string :=
  <["google_id" := gid]> (<["url" := "/"]> ∅).

(** One approved word without votes, and a logged-in user who has not
    voted on anything. *)
Definition fresh_state : State :=
  {| db := {| words := [sample_word 1 0 0 approved];
              users := [sample_user "g-asha" [] []] |};
     session := session_of "g-asha" |}.

(** ** Vote sets *)

(** No word id is in both vote arrays of the user. *)
Definition votes_apart (u : User) : Prop :=
  Forall (λ x, x ∉ downvotes u) (upvotes u).

Global Instance votes_apart_dec u : Decision (votes_apart u).
Proof. unfold votes_apart. apply _. Defined.

Definition votes_disjoint (st : State) : Prop :=
  on_users (Forall votes_apart) st.

Global Instance votes_disjoint_dec st : Decision (votes_disjoint st).
Proof. unfold votes_disjoint, on_users. apply _. Defined.

Definition is_vote (r : Request) : bool :=
  match r with
  | POST_upvote _ | POST_undo_upvote _
  | POST_undo_downvote _ | POST_downvote _ => true
  | _ => false
  end.

(** The caller of an upvote has not downvoted the word, and the caller of
    a downvote has not upvoted it. *)
Definition one_sided (r : Request) (st : State) : Prop :=
  match r with
  | POST_upvote word_id =>
      ∀ gid u, logged_in_as gid st → find_user gid st = Some u →
        word_id ∉ downvotes u
  | POST_downvote word_id =>
      ∀ gid u, logged_in_as gid st → find_user gid st = Some u →
        word_id ∉ upvotes u
  | _ => True
  end.

Section Runs.
Variable text_search : string → Word → bool.

(** A sequence of vote requests, each one-sided in the state it meets. *)
Fixpoint one_sided_votes (rs : list Request) (st : State) : Prop :=
  match rs with
  | [] => True
  | r :: rs' =>
      is_vote r = true ∧ one_sided r st
      ∧ one_sided_votes rs' (after text_search r st)
  end.
End Runs.

(** What a vote handler writes to [db.users]. *)
Definition users_after_vote (on_user : User → User) (word_id : string)
    (st : State) : list User :=
  match parse_oid word_id, session st !! "google_id" with
  | Some _, Some gid => update_one (has_google_id gid) on_user (users (db st))
  | _, _ => users (db st)
  end.

(** ** The home page *)

(** The page number a request asks for. *)
Definition requested_page (page : option string) : option Z :=
  match page with
  | None => Some 1
  | Some p => parse_int p
  end.

(** The return-to address [get_words] leaves in the session. *)
Definition home_url (page : option string) : string :=
  match page with
  | Some p => "/?page=" +:+ p
  | None => "/"
  end.

(** The viewer is anonymous, or has a document in [db.users]. *)
Definition viewer_known (st : State) : Prop :=
  logged_out st ∨ ∃ gid u, logged_in_as gid st ∧ find_user gid st = Some u.

(** Descending order on vote counts. *)
Definition desc : relation Z := λ a b, b ≤ a.

Global Instance desc_dec : RelDecision desc.
Proof. intros a b. unfold desc. apply _. Defined.

(** Ten approved words with 1 to 10 upvotes in the order they were posted,
    a pending word with more upvotes than any of them, and no session. *)
Definition ten_approved : State :=
  {| db := {| words :=
                sample_word 90 50 0 pending
                :: ((λ i, sample_word (Z.to_N i) i 0 approved)
                      <$> [1; 2; 3; 4; 5; 6; 7; 8; 9; 10]);
              users := [] |};
     session := ∅ |}.

(** ** Search *)

(** A sample text index: a document matches a query when its definition,
    in lower case, contains the query. *)
Definition definition_contains (q : string) (w : Word) : bool :=
  match String.index 0 q (lower (definition w)) with
  | Some _ => true
  | None => false
  end.

Definition defined_word (oid : N) (text : string) (up : Z) (s : Status)
    : Word :=
  {| _id := oid; word := "jugaad"; definition := text;
     email := "asha@example.org"; userHandle := "Asha";
     upvote := up; downvote := 0; status := s;
     authorID := "g-asha"; postedDate := 0;
     languages := "hindi"; partofspeech := "noun"; gender := "";
     conjugates := ""; usageexample := ""; synonyms := ""; antonyms := "";
     region := ""; zipcode := "" |}.

(** One approved word and two words awaiting moderation, all three with
    the term [fix] in their definition. *)
Definition one_approved_match : State :=
  {| db := {| words := [defined_word 1 "a clever fix" 3 approved;
                        defined_word 2 "a quick fix" 0 pending;
                        defined_word 3 "fix it later" 0 pending];
              users := [] |};
     session := ∅ |}.

(** ** Submission *)

(** The form fields [postword] reads with [request.form[...]]. *)
Definition required_fields : list string :=
  ["word"; "language"; "part_of_speech"; "gender"; "conjugates";
   "usage_example"; "synonyms"; "antonyms"; "region"; "uploaded_zip_code";
   "def"].

(** The value of a form field that is present. *)
Definition field (form : gmap string string) (key : string) : string :=
  default "" (form !! key).

(** ** Moderation *)

(** The documents of the first page of the home page, as an anonymous
    visitor gets them. *)
Definition list_approved (st : State) : list Word :=
  match (get_words None st).2 with
  | Ok (render_home pg) => doc <$> json_words pg
  | _ => []
  end.

(** A word that was declined. *)
Definition declined_state : State :=
  {| db := {| words := [sample_word 1 4 0 declined]; users := [] |};
     session := ∅ |}.

(** The word under [oid] is there and is not pending. *)
Definition moderated (oid : N) (ws : list Word) : Prop :=
  ∃ w, List.find (has_id oid) ws = Some w ∧ status w ≠ pending.

(** ** Votes without a session *)

(** The store of [fresh_state], visited without a session. *)
Definition anonymous_state : State :=
  {| db := db fresh_state; session := ∅ |}.

(** ** More sample inputs *)

(** A word with one upvote, cast by the user of the session. *)
Definition voted_state : State :=
  {| db := {| words := [sample_word 1 1 0 approved];
              users := [sample_user "g-asha" [sample_id] []] |};
     session := session_of "g-asha" |}.

Definition absent_id : string := "000000000000000000000002".

Definition sample_form : gmap string string :=
  list_to_map
    [("word", "jugaad"); ("language", "hindi"); ("part_of_speech", "noun");
     ("gender", "feminine"); ("conjugates", ""); ("usage_example", "");
     ("synonyms", ""); ("antonyms", ""); ("region", "north");
     ("uploaded_zip_code", "110001"); ("def", "a clever fix")].

Definition author_state : State :=
  {| db := db fresh_state;
     session := <["name" := "Asha"]>
                  (<["email" := "asha@example.org"]> (session_of "g-asha")) |}.

(** ** Further notions *)

(** What a vote handler answers once its two writes are made:
    [redirect(session['url'])]. *)
Definition redirect_back (st : State) : Result Response :=
  match session st !! "url" with
  | Some url => Ok (redirect url)
  | None => Raise (KeyError "url")
  end.

(** [answers P m]: whenever [m] returns, what it returns satisfies [P]. *)
Definition answers {A} (P : A → Prop) (m : M A) : Prop :=
  ∀ st, match (m st).2 with
        | Ok a => P a
        | Raise _ => True
        end.

(** The words awaiting moderation, as the dashboard lists them. *)
Definition pending_words (st : State) : list Word :=
  filter is_pending (words (db st)).

(** The document [postword] builds from a form and a session. *)
Definition submitted_word (form session : gmap string string) (now : Z)
    (oid : N) : Word :=
  {| _id := oid; word := field form "word"; definition := field form "def";
     email := default "" (session !! "email");
     userHandle :=
       if bool_decide (form !! "anonCheck" = Some "anonTrue") then "Anonymous"
       else default "" (session !! "name");
     upvote := 0; downvote := 0; status := pending;
     authorID := default "" (session !! "google_id"); postedDate := now;
     languages := field form "language";
     partofspeech := field form "part_of_speech";
     gender := field form "gender"; conjugates := field form "conjugates";
     usageexample := field form "usage_example";
     synonyms := field form "synonyms"; antonyms := field form "antonyms";
     region := field form "region";
     zipcode := field form "uploaded_zip_code" |}.

(** A submission [postword] completes: the required fields are there, the
    session holds the author's identity, and the generated id is new. *)
Definition valid_submission (form : gmap string string) (oid : N)
    (st : State) : Prop :=
  Forall (λ key, is_Some (form !! key)) required_fields
  ∧ is_Some (session st !! "google_id")
  ∧ is_Some (session st !! "email")
  ∧ (form !! "anonCheck" ≠ Some "anonTrue" → is_Some (session st !! "name"))
  ∧ find_word oid st = None.

(** The document [callback] inserts at a first login, and the session it
    leaves. *)
Definition new_user (id_info : IdInfo) : User :=
  {| name := id_name id_info; user_email := id_email id_info;
     google_id := sub id_info; picture := id_picture id_info;
     email_verified := id_email_verified id_info;
     words_author := []; upvotes := []; downvotes := [] |}.

Definition login_session (id_info : IdInfo) (s : gmap string string)
    : gmap string string :=
  <["email_verified" := str_bool (id_email_verified id_info)]>
    (<["picture" := id_picture id_info]>
       (<["email" := id_email id_info]>
          (<["name" := id_name id_info]>
             (<["google_id" := sub id_info]> s)))).

(** [db.users] after a login: a user who is not there yet is appended. *)
Definition users_after_login (id_info : IdInfo) (us : list User) : list User :=
  match List.find (has_google_id (sub id_info)) us with
  | Some _ => us
  | None => us ++ [new_user id_info]
  end.

(** The routes served with GET, the login callback aside. *)
Definition is_plain_get (r : Request) : bool :=
  match r with
  | GET_user | GET_user_login _ _ | GET_user_logout
  | GET_user_protected_area | GET_home _ | GET_addword
  | GET_adminDashboard | GET_search _ _ => true
  | _ => false
  end.

(** The approved words that match a query, in the order [search] lists
    them. *)
Definition approved_matches (text_search : string → Word → bool)
    (q : string) (coll : list Word) : list Word :=
  merge_sort by_votes
    (filter (λ w, is_approved w ∧ text_search (lower q) w) coll).

(** The part of a word no vote and no moderation is meant to touch. *)
Definition content (w : Word) : list string * Z * N :=
  ([word w; definition w; email w; userHandle w; authorID w; languages w;
    partofspeech w; gender w; conjugates w; usageexample w; synonyms w;
    antonyms w; region w; zipcode w],
   postedDate w, _id w).

(** The word under [oid] is there, with the content of [w]. *)
Definition kept (oid : N) (w : Word) (ws : list Word) : Prop :=
  ∃ w', List.find (has_id oid) ws = Some w' ∧ content w' = content w.

(** No two documents of [db.users] have the same [google_id]. *)
Definition one_user_per_id (us : list User) : Prop :=
  NoDup (google_id <$> us).

(** The vote arrays of every user are sets. *)
Definition votes_are_sets (us : list User) : Prop :=
  Forall (λ u, NoDup (upvotes u) ∧ NoDup (downvotes u)) us.

(** ASCII blanks, which [bytes.fromhex] skips between pairs of digits. *)
Definition is_blank (c : ascii) : bool :=
  let n := N_of_ascii c in
  ((n =? 32) || ((9 <=? n) && (n <=? 13)))%N.

(** A character that is neither a hexadecimal digit nor a blank. *)
Definition is_foreign (c : ascii) : bool :=
  match hex_digit c with
  | Some _ => false
  | None => negb (is_blank c)
  end.

Fixpoint has_foreign_char (s : string) : bool :=
  match s with
  | EmptyString => false
  | String c s' => is_foreign c || has_foreign_char s'
  end.

(** The texts [ObjectId] refuses whatever their blanks: those that are not
    24 characters long and those with a character [bytes.fromhex] cannot
    read. *)
Definition refused_by_ObjectId (word_id : string) : Prop :=
  String.length word_id ≠ 24%nat ∨ has_foreign_char word_id = true.

(** ** Sample inputs for the further properties *)

(** The user of [fresh_state], logged in without a return-to address. *)
Definition no_url_state : State :=
  {| db := db fresh_state;
     session := <["google_id" := "g-asha"]> ∅ |}.

(** A session that waits for the callback of the identity provider. *)
Definition awaiting_callback : State :=
  {| db := db fresh_state; session := <["state" := "s-81"]> ∅ |}.

Definition sample_identity : IdInfo :=
  {| sub := "g-ravi"; id_name := "Ravi"; id_email := "ravi@example.org";
     id_picture := ""; id_email_verified := true |}.

(** A session whose user has no document. *)
Definition orphan_state : State :=
  {| db := {| words := [sample_word 1 0 0 approved]; users := [] |};
     session := session_of "g-asha" |}.

(** * Properties *)

(** ** Lemmas on the store operations *)

Section UpdateOne.
Context {A : Type} (matches : A → bool) (update : A → A).

Lemma update_one_no_match (coll : list A) :
  List.find matches coll = None → update_one matches update coll = coll.
Proof.
  induction coll as [|d rest IH]; simpl; [done|].
  destruct (matches d); [done|]. intros H. by rewrite IH.
Qed.

Lemma update_one_find (coll : list A) (d : A) :
  (∀ x, matches (update x) = matches x) →
  List.find matches coll = Some d →
  List.find matches (update_one matches update coll) = Some (update d).
Proof.
  intros Hkey. induction coll as [|x rest IH]; simpl; [done|].
  destruct (matches x) eqn:Hx; simpl.
  - intros [= ->]. by rewrite Hkey, Hx.
  - rewrite Hx. exact IH.
Qed.

Lemma update_one_find_None (coll : list A) :
  List.find matches coll = None →
  List.find matches (update_one matches update coll) = None.
Proof. intros H. by rewrite update_one_no_match. Qed.

Lemma update_one_Forall (P : A → Prop) (coll : list A) :
  (∀ x, List.find matches coll = Some x → P x → P (update x)) →
  Forall P coll → Forall P (update_one matches update coll).
Proof.
  intros Hup Hall. induction Hall as [|x rest Hx Hrest IH]; simpl;
    [constructor|].
  simpl in Hup. destruct (matches x) eqn:E; constructor; auto.
Qed.

Lemma update_one_fmap {B} (f : A → B) (coll : list A) :
  (∀ x, f (update x) = f x) →
  f <$> update_one matches update coll = f <$> coll.
Proof.
  intros Hf. induction coll as [|x rest IH]; csimpl; [done|].
  destruct (matches x); csimpl; by rewrite ?Hf, ?IH.
Qed.
End UpdateOne.

Lemma addToSet_elem (x : string) (arr : list string) : x ∈ addToSet x arr.
Proof.
  unfold addToSet. case_bool_decide; [done|].
  apply elem_of_app. right. by apply list_elem_of_singleton.
Qed.

Lemma addToSet_idemp (x : string) (arr : list string) :
  addToSet x (addToSet x arr) = addToSet x arr.
Proof.
  unfold addToSet at 1. by rewrite bool_decide_eq_true_2 by apply addToSet_elem.
Qed.

Lemma addToSet_NoDup (x : string) (arr : list string) :
  NoDup arr → NoDup (addToSet x arr).
Proof.
  intros H. unfold addToSet. case_bool_decide; [done|].
  apply NoDup_app. split_and!; [done| |apply NoDup_singleton].
  intros y Hy Hx. apply list_elem_of_singleton in Hx. by subst.
Qed.

Lemma pull_NoDup (x : string) (arr : list string) :
  NoDup arr → NoDup (pull x arr).
Proof. apply NoDup_filter. Qed.

Lemma pull_not_elem (x : string) (arr : list string) : x ∉ pull x arr.
Proof. unfold pull. rewrite list_elem_of_filter. by intros [Hne _]. Qed.

(** ** Running the handlers *)

(** Unfolding of the monad and of the primitive store and session
    operations. *)
Ltac unfold_M :=
  unfold login_is_required, ObjectId, form_get, first,
    session_contains, session_get, session_set, session_clear,
    words_update_one, users_update_one, words_find, users_find,
    words_insert_one, users_insert_one,
    get_session, get_db, put_session, put_db, raise, try_except,
    mbind, M_bind, mret, M_ret in *.

Lemma session_contains_logged_in gid st :
  logged_in_as gid st → bool_decide (is_Some (session st !! "google_id")) = true.
Proof. intros H. apply bool_decide_eq_true. rewrite H. by eexists. Qed.

Lemma session_contains_logged_out st :
  logged_out st → bool_decide (is_Some (session st !! "google_id")) = false.
Proof.
  intros H. apply bool_decide_eq_false. rewrite H. by intros [? ?].
Qed.

Lemma upvote_word_logged_in st word_id oid gid :
  logged_in_as gid st → parse_oid word_id = Some oid →
  (upvote_word word_id st).1
  = vote_writes oid (inc_upvote 1) gid (set_upvotes (addToSet word_id)) st.
Proof.
  intros Hin Hoid. unfold upvote_word. unfold_M.
  rewrite (session_contains_logged_in gid st Hin). simpl.
  rewrite Hoid. simpl. red in Hin. rewrite Hin. simpl.
  by destruct (session st !! "url").
Qed.

Lemma downvote_word_logged_in st word_id oid gid :
  logged_in_as gid st → parse_oid word_id = Some oid →
  (downvote_word word_id st).1
  = vote_writes oid (inc_downvote 1) gid (set_downvotes (addToSet word_id)) st.
Proof.
  intros Hin Hoid. unfold downvote_word. unfold_M.
  rewrite (session_contains_logged_in gid st Hin). simpl.
  rewrite Hoid. simpl. red in Hin. rewrite Hin. simpl.
  by destruct (session st !! "url").
Qed.

Lemma undo_upvote_logged_in st word_id oid gid :
  logged_in_as gid st → parse_oid word_id = Some oid →
  (undo_upvote word_id st).1
  = vote_writes oid (inc_upvote (-1)) gid (set_upvotes (pull word_id)) st.
Proof.
  intros Hin Hoid. unfold undo_upvote. unfold_M.
  rewrite Hoid. simpl. red in Hin. rewrite Hin. simpl.
  by destruct (session st !! "url").
Qed.

Lemma undo_downvote_logged_in st word_id oid gid :
  logged_in_as gid st → parse_oid word_id = Some oid →
  (undo_downvote word_id st).1
  = vote_writes oid (inc_downvote (-1)) gid (set_downvotes (pull word_id)) st.
Proof.
  intros Hin Hoid. unfold undo_downvote. unfold_M.
  rewrite Hoid. simpl. red in Hin. rewrite Hin. simpl.
  by destruct (session st !! "url").
Qed.

Lemma upvote_word_logged_out st word_id :
  logged_out st → upvote_word word_id st = (st, Ok (redirect "/user")).
Proof.
  intros Hout. unfold upvote_word. unfold_M.
  by rewrite (session_contains_logged_out st Hout).
Qed.

Lemma downvote_word_logged_out st word_id :
  logged_out st → downvote_word word_id st = (st, Ok (redirect "/user")).
Proof.
  intros Hout. unfold downvote_word. unfold_M.
  by rewrite (session_contains_logged_out st Hout).
Qed.

Lemma undo_upvote_logged_out st word_id oid :
  logged_out st → parse_oid word_id = Some oid →
  undo_upvote word_id st
  = (word_write oid (inc_upvote (-1)) st, Raise (KeyError "google_id")).
Proof.
  intros Hout Hoid. unfold undo_upvote. unfold_M.
  rewrite Hoid. simpl. red in Hout. by rewrite Hout.
Qed.

Lemma undo_downvote_logged_out st word_id oid :
  logged_out st → parse_oid word_id = Some oid →
  undo_downvote word_id st
  = (word_write oid (inc_downvote (-1)) st, Raise (KeyError "google_id")).
Proof.
  intros Hout Hoid. unfold undo_downvote. unfold_M.
  rewrite Hoid. simpl. red in Hout. by rewrite Hout.
Qed.

Lemma vote_handler_invalid_id st word_id :
  parse_oid word_id = None →
  undo_upvote word_id st = (st, Raise InvalidId)
  ∧ undo_downvote word_id st = (st, Raise InvalidId)
  ∧ (upvote_word word_id st).1 = st
  ∧ (downvote_word word_id st).1 = st.
Proof.
  intros Hoid. unfold undo_upvote, undo_downvote, upvote_word, downvote_word.
  unfold_M. rewrite Hoid. split_and!; try done.
  - by destruct (bool_decide _).
  - by destruct (bool_decide _).
Qed.

Lemma find_update_one_fmap {A} (matches : A → bool) (update : A → A) coll :
  (∀ x, matches (update x) = matches x) →
  List.find matches (update_one matches update coll)
  = update <$> List.find matches coll.
Proof.
  intros Hkey. destruct (List.find matches coll) as [d|] eqn:E.
  - by apply update_one_find.
  - by apply update_one_find_None.
Qed.

Lemma find_word_vote_writes oid on_word gid on_user st :
  (∀ w, _id (on_word w) = _id w) →
  find_word oid (vote_writes oid on_word gid on_user st)
  = on_word <$> find_word oid st.
Proof.
  intros Hid. unfold find_word, vote_writes. simpl.
  apply find_update_one_fmap. intros w. unfold has_id. by rewrite Hid.
Qed.

Lemma find_user_vote_writes oid on_word gid on_user st :
  (∀ u, google_id (on_user u) = google_id u) →
  find_user gid (vote_writes oid on_word gid on_user st)
  = on_user <$> find_user gid st.
Proof.
  intros Hid. unfold find_user, vote_writes. simpl.
  apply find_update_one_fmap. intros u. unfold has_google_id. by rewrite Hid.
Qed.

Lemma find_word_word_write oid on_word st :
  (∀ w, _id (on_word w) = _id w) →
  find_word oid (word_write oid on_word st) = on_word <$> find_word oid st.
Proof.
  intros Hid. unfold find_word, word_write. simpl.
  apply find_update_one_fmap. intros w. unfold has_id. by rewrite Hid.
Qed.

(** ** Upvoting *)

(** C1: for a logged-in user and a word of the store, [upvote_word] adds 1
    to the word's [upvote] counter and adds the word id to the user's
    [upvotes] array with set semantics; a second call for the same word and
    user adds 1 to the counter again and leaves the array as it was after
    the first call, the id occurring in it once. *)
Theorem upvote_word_counts_and_records
    (st : State) (word_id gid : string) (oid : N) (n : Z)
    (ups : list string) :
  logged_in_as gid st →
  parse_oid word_id = Some oid →
  upvote <$> find_word oid st = Some n →
  upvotes <$> find_user gid st = Some ups →
  let st1 := (upvote_word word_id st).1 in
  let st2 := (upvote_word word_id st1).1 in
  upvote <$> find_word oid st1 = Some (n + 1)
  ∧ upvotes <$> find_user gid st1 = Some (addToSet word_id ups)
  ∧ word_id ∈ addToSet word_id ups
  ∧ (word_id ∉ ups → addToSet word_id ups = (ups ++ [word_id])%list)
  ∧ (word_id ∈ ups → addToSet word_id ups = ups)
  ∧ (NoDup ups → NoDup (addToSet word_id ups))
  ∧ upvote <$> find_word oid st2 = Some (n + 1 + 1)
  ∧ upvotes <$> find_user gid st2 = upvotes <$> find_user gid st1.
Proof.
  intros Hin Hoid Hn Hups st1 st2.
  assert (E1 : st1 = vote_writes oid (inc_upvote 1) gid
                       (set_upvotes (addToSet word_id)) st)
    by by apply upvote_word_logged_in.
  assert (Hin1 : logged_in_as gid st1) by by rewrite E1.
  assert (E2 : st2 = vote_writes oid (inc_upvote 1) gid
                       (set_upvotes (addToSet word_id)) st1)
    by by apply upvote_word_logged_in.
  assert (W1 : upvote <$> find_word oid st1 = Some (n + 1)).
  { rewrite E1, find_word_vote_writes by done.
    destruct (find_word oid st) as [w|]; simplify_eq/=. done. }
  assert (U1 : upvotes <$> find_user gid st1 = Some (addToSet word_id ups)).
  { rewrite E1, find_user_vote_writes by done.
    destruct (find_user gid st) as [u|]; simplify_eq/=. done. }
  split_and!; try done.
  - apply addToSet_elem.
  - intros Hnot. unfold addToSet. by rewrite bool_decide_eq_false_2.
  - intros Hel. unfold addToSet. by rewrite bool_decide_eq_true_2.
  - apply addToSet_NoDup.
  - rewrite E2, find_word_vote_writes by done.
    destruct (find_word oid st1) as [w|]; simplify_eq/=. congruence.
  - rewrite U1, E2, find_user_vote_writes by done.
    destruct (find_user gid st1) as [u|]; simplify_eq/=.
    by rewrite U1, addToSet_idemp.
Qed.

(** ** Invariants of handlers *)

Section Preserves.
Context (I : State → Prop).

Lemma preserves_ret {A} (a : A) : preserves I (mret a).
Proof. by intros st H. Qed.

Lemma preserves_raise {A} (e : Exn) : preserves I (@raise A e).
Proof. by intros st H. Qed.

Lemma preserves_bind {A B} (m : M A) (f : A → M B) :
  preserves I m → (∀ a, preserves I (f a)) → preserves I (m ≫= f).
Proof.
  intros Hm Hf st H. unfold mbind, M_bind.
  specialize (Hm st H). destruct (m st) as [st' [a|e]]; simpl in *; [|done].
  by apply Hf.
Qed.

Lemma preserves_try_except {A} (body handler : M A) :
  preserves I body → preserves I handler →
  preserves I (try_except body handler).
Proof.
  intros Hb Hh st H. unfold try_except.
  specialize (Hb st H). destruct (body st) as [st' [a|e]]; simpl in *;
    [done|]. by apply Hh.
Qed.

Lemma preserves_get_db : preserves I get_db.
Proof. by intros st H. Qed.

Lemma preserves_get_session : preserves I get_session.
Proof. by intros st H. Qed.
End Preserves.

Section PreservesWords.
Context (J : list Word → Prop).

Lemma preserves_put_session s : preserves (on_words J) (put_session s).
Proof. by intros st H. Qed.

Lemma preserves_users_update_one gid update :
  preserves (on_words J) (users_update_one gid update).
Proof. by intros st H. Qed.

Lemma preserves_users_insert_one json :
  preserves (on_words J) (users_insert_one json).
Proof. by intros st H. Qed.

Lemma preserves_words_update_one oid update :
  (∀ ws, J ws → J (update_one (has_id oid) update ws)) →
  preserves (on_words J) (words_update_one oid update).
Proof. intros Hup st H. by apply Hup. Qed.

Lemma preserves_words_insert_one json :
  (∀ ws, J ws → J (ws ++ [json])) →
  preserves (on_words J) (words_insert_one json).
Proof.
  intros Hup st H. unfold words_insert_one, mbind, M_bind, get_db.
  destruct (existsb _ _); [done|]. by apply Hup.
Qed.
End PreservesWords.

(** One step through a handler body: the structural rules first, then a
    case split on whatever the body branches on. *)
Ltac preserves_step :=
  lazymatch goal with
  | |- preserves _ (mret _) => apply preserves_ret
  | |- preserves _ (raise _) => apply preserves_raise
  | |- preserves _ (_ ≫= _) => apply preserves_bind; [|intros ?]
  | |- preserves _ (try_except _ _) => apply preserves_try_except
  | |- preserves _ get_db => apply preserves_get_db
  | |- preserves _ get_session => apply preserves_get_session
  | |- preserves (on_words _) (put_session _) => apply preserves_put_session
  | |- preserves (on_words _) (users_update_one _ _) =>
      apply preserves_users_update_one
  | |- preserves (on_words _) (users_insert_one _) =>
      apply preserves_users_insert_one
  | |- preserves _ (match ?x with _ => _ end) => destruct x
  | |- preserves _ (let _ := _ in _) => cbv zeta
  end.

Ltac unfold_handlers :=
  unfold loginpage, userlogin, callback, userlogout, protected_area,
    get_words, postword, upvote_word, undo_upvote, undo_downvote,
    downvote_word, word_form, dash, search, approve_word, approved_page,
    skip_limit, int, login_is_required, ObjectId, form_get, first,
    session_contains, session_get, session_set, session_clear,
    words_find, users_find.

(** ** Vote counters *)

Lemma find_Some_elem {A} (p : A → bool) (l : list A) (d : A) :
  List.find p l = Some d → d ∈ l.
Proof.
  induction l as [|x l IH]; simpl; [done|].
  destruct (p x); [intros [= ->]; by left|]. intros H. right. by apply IH.
Qed.

Lemma update_one_counters_ok oid update ws :
  (∀ w, counters_ok w → counters_ok (update w)) →
  Forall counters_ok ws → Forall counters_ok (update_one (has_id oid) update ws).
Proof. intros H. apply update_one_Forall. auto. Qed.

Lemma counters_nonneg_handle ts r :
  is_undo r = false → preserves (on_words (Forall counters_ok)) (handle ts r).
Proof.
  intros Hr. destruct r; try discriminate Hr; simpl; unfold_handlers;
    repeat preserves_step.
  - apply preserves_words_insert_one. intros ws Hws.
    apply Forall_app. split; [done|]. by repeat constructor.
  - apply preserves_words_update_one. intros ws.
    apply update_one_counters_ok. intros w [Hu Hd]. split; simpl; lia.
  - apply preserves_words_update_one. intros ws.
    apply update_one_counters_ok. intros w [Hu Hd]. split; simpl; lia.
  - apply preserves_words_update_one. intros ws.
    by apply update_one_counters_ok.
  - apply preserves_words_update_one. intros ws.
    by apply update_one_counters_ok.
Qed.

Lemma undo_upvote_words st word_id :
  words (db (undo_upvote word_id st).1)
  = match parse_oid word_id with
    | Some oid => update_one (has_id oid) (inc_upvote (-1)) (words (db st))
    | None => words (db st)
    end.
Proof.
  unfold undo_upvote. unfold_M. destruct (parse_oid word_id); [|done]. simpl.
  destruct (session st !! "google_id"); [|done]. simpl.
  by destruct (session st !! "url").
Qed.

Lemma undo_downvote_words st word_id :
  words (db (undo_downvote word_id st).1)
  = match parse_oid word_id with
    | Some oid => update_one (has_id oid) (inc_downvote (-1)) (words (db st))
    | None => words (db st)
    end.
Proof.
  unfold undo_downvote. unfold_M. destruct (parse_oid word_id); [|done]. simpl.
  destruct (session st !! "google_id"); [|done]. simpl.
  by destruct (session st !! "url").
Qed.

(** C2, as the code has it: the counters stay at or above 0 under every
    request other than the two undo requests; an undo request subtracts 1
    from the counter of the word it addresses whatever that counter is,
    without a floor: it keeps the counters at or above 0 when that counter
    was at least 1, and it takes a counter that was 0 to -1. *)
Theorem counters_nonneg_preserved
    (text_search : string → Word → bool) (r : Request) (st : State) :
  counters_nonneg st →
  ((∀ word_id oid w, r = POST_undo_upvote word_id →
      parse_oid word_id = Some oid → find_word oid st = Some w →
      1 ≤ upvote w) →
   (∀ word_id oid w, r = POST_undo_downvote word_id →
      parse_oid word_id = Some oid → find_word oid st = Some w →
      1 ≤ downvote w) →
   counters_nonneg (after text_search r st))
  ∧ (∀ word_id oid w, r = POST_undo_upvote word_id →
       parse_oid word_id = Some oid → find_word oid st = Some w →
       upvote <$> find_word oid (after text_search r st)
       = Some (upvote w - 1)
       ∧ (upvote w = 0 → ¬ counters_nonneg (after text_search r st)))
  ∧ (∀ word_id oid w, r = POST_undo_downvote word_id →
       parse_oid word_id = Some oid → find_word oid st = Some w →
       downvote <$> find_word oid (after text_search r st)
       = Some (downvote w - 1)
       ∧ (downvote w = 0 → ¬ counters_nonneg (after text_search r st))).
Proof.
  intros Hst. split_and!.
  - intros Hup Hdown. destruct (is_undo r) eqn:Hr.
    + destruct r; try discriminate Hr; unfold after, counters_nonneg,
        on_words; simpl.
      * rewrite undo_upvote_words.
        destruct (parse_oid word_id) as [oid|] eqn:Hoid; [|done].
        apply update_one_Forall; [|done].
        intros w Hw [Hu Hd]. specialize (Hup word_id oid w eq_refl Hoid Hw).
        split; simpl; lia.
      * rewrite undo_downvote_words.
        destruct (parse_oid word_id) as [oid|] eqn:Hoid; [|done].
        apply update_one_Forall; [|done].
        intros w Hw [Hu Hd]. specialize (Hdown word_id oid w eq_refl Hoid Hw).
        split; simpl; lia.
    + by apply counters_nonneg_handle.
  - intros word_id oid w -> Hoid Hw.
    assert (Hafter : List.find (has_id oid)
                       (words (db (after text_search
                                     (POST_undo_upvote word_id) st)))
                     = Some (inc_upvote (-1) w)).
    { unfold after, find_word in *. simpl.
      rewrite undo_upvote_words, Hoid, find_update_one_fmap by done.
      by rewrite Hw. }
    split.
    + unfold find_word. by rewrite Hafter.
    + intros Hzero Hnn. apply find_Some_elem in Hafter.
      unfold counters_nonneg, on_words in Hnn. rewrite Forall_forall in Hnn.
      destruct (Hnn _ Hafter) as [Hu _]. simpl in Hu. lia.
  - intros word_id oid w -> Hoid Hw.
    assert (Hafter : List.find (has_id oid)
                       (words (db (after text_search
                                     (POST_undo_downvote word_id) st)))
                     = Some (inc_downvote (-1) w)).
    { unfold after, find_word in *. simpl.
      rewrite undo_downvote_words, Hoid, find_update_one_fmap by done.
      by rewrite Hw. }
    split.
    + unfold find_word. by rewrite Hafter.
    + intros Hzero Hnn. apply find_Some_elem in Hafter.
      unfold counters_nonneg, on_words in Hnn. rewrite Forall_forall in Hnn.
      destruct (Hnn _ Hafter) as [_ Hd]. simpl in Hd. lia.
Qed.

(** C2 fails as stated: undoing an upvote that was never cast takes the
    counter of a word from 0 to -1. *)
Lemma undo_upvote_goes_negative :
  counters_nonneg fresh_state
  ∧ upvotes <$> find_user "g-asha" fresh_state = Some []
  ∧ upvote <$> find_word 1 (undo_upvote sample_id fresh_state).1 = Some (-1)
  ∧ ¬ counters_nonneg (undo_upvote sample_id fresh_state).1.
Proof.
  split_and!.
  - by apply (bool_decide_unpack _).
  - reflexivity.
  - reflexivity.
  - by apply (bool_decide_eq_false_1 _).
Qed.

(** ** Vote sets *)

Ltac vote_users_tac :=
  unfold users_after_vote; unfold_M;
  repeat match goal with
  | |- context [bool_decide (is_Some ?o)] =>
      destruct o eqn:?; simpl; try done
  | |- context [match ?o with Some _ => _ | None => _ end] =>
      destruct o eqn:?; simpl; try done
  end;
  simplify_eq; try done.

Lemma upvote_word_users st word_id :
  users (db (upvote_word word_id st).1)
  = users_after_vote (set_upvotes (addToSet word_id)) word_id st.
Proof. unfold upvote_word. vote_users_tac. Qed.

Lemma downvote_word_users st word_id :
  users (db (downvote_word word_id st).1)
  = users_after_vote (set_downvotes (addToSet word_id)) word_id st.
Proof. unfold downvote_word. vote_users_tac. Qed.

Lemma undo_upvote_users st word_id :
  users (db (undo_upvote word_id st).1)
  = users_after_vote (set_upvotes (pull word_id)) word_id st.
Proof. unfold undo_upvote. vote_users_tac. Qed.

Lemma undo_downvote_users st word_id :
  users (db (undo_downvote word_id st).1)
  = users_after_vote (set_downvotes (pull word_id)) word_id st.
Proof. unfold undo_downvote. vote_users_tac. Qed.

Lemma elem_of_addToSet (x y : string) (arr : list string) :
  y ∈ addToSet x arr ↔ y = x ∨ y ∈ arr.
Proof.
  unfold addToSet. case_bool_decide.
  - split; [by right|]. by intros [->|?].
  - rewrite elem_of_app, list_elem_of_singleton. tauto.
Qed.

Lemma elem_of_pull (x y : string) (arr : list string) :
  y ∈ pull x arr ↔ y ≠ x ∧ y ∈ arr.
Proof. unfold pull. by rewrite list_elem_of_filter. Qed.

Lemma votes_apart_upvote word_id u :
  word_id ∉ downvotes u → votes_apart u →
  votes_apart (set_upvotes (addToSet word_id) u).
Proof.
  unfold votes_apart. simpl. rewrite !Forall_forall.
  intros Hid Hu x [->|Hx]%elem_of_addToSet; auto.
Qed.

Lemma votes_apart_downvote word_id u :
  word_id ∉ upvotes u → votes_apart u →
  votes_apart (set_downvotes (addToSet word_id) u).
Proof.
  unfold votes_apart. simpl. rewrite !Forall_forall.
  intros Hid Hu x Hx [->|Hd]%elem_of_addToSet; [done|]. by apply (Hu x).
Qed.

Lemma votes_apart_undo_upvote word_id u :
  votes_apart u → votes_apart (set_upvotes (pull word_id) u).
Proof.
  unfold votes_apart. simpl. rewrite !Forall_forall.
  intros Hu x [_ Hx]%elem_of_pull. by apply Hu.
Qed.

Lemma votes_apart_undo_downvote word_id u :
  votes_apart u → votes_apart (set_downvotes (pull word_id) u).
Proof.
  unfold votes_apart. simpl. rewrite !Forall_forall.
  intros Hu x Hx [_ Hd]%elem_of_pull. by apply (Hu x).
Qed.

Lemma users_after_vote_apart on_user word_id st :
  (∀ gid u, logged_in_as gid st → find_user gid st = Some u →
     votes_apart u → votes_apart (on_user u)) →
  Forall votes_apart (users (db st)) →
  Forall votes_apart (users_after_vote on_user word_id st).
Proof.
  intros Hon Hst. unfold users_after_vote.
  destruct (parse_oid word_id); [|done].
  destruct (session st !! "google_id") as [gid|] eqn:Hgid; [|done].
  apply update_one_Forall; [|done]. intros u Hu. by apply (Hon gid).
Qed.

Lemma votes_disjoint_step ts r st :
  votes_disjoint st → is_vote r = true → one_sided r st →
  votes_disjoint (after ts r st).
Proof.
  intros Hst Hr Hside.
  destruct r; try discriminate Hr; unfold after, votes_disjoint, on_users;
    simpl in *.
  - rewrite upvote_word_users. apply users_after_vote_apart; [|done].
    intros gid u Hin Hu. apply votes_apart_upvote. by apply (Hside gid).
  - rewrite undo_upvote_users. apply users_after_vote_apart; [|done].
    intros gid u _ _. apply votes_apart_undo_upvote.
  - rewrite undo_downvote_users. apply users_after_vote_apart; [|done].
    intros gid u _ _. apply votes_apart_undo_downvote.
  - rewrite downvote_word_users. apply users_after_vote_apart; [|done].
    intros gid u Hin Hu. apply votes_apart_downvote. by apply (Hside gid).
Qed.

Lemma users_after_vote_fmap {B} (f : User → B) on_user word_id st :
  (∀ u, f (on_user u) = f u) →
  f <$> users_after_vote on_user word_id st = f <$> users (db st).
Proof.
  intros Hf. unfold users_after_vote.
  destruct (parse_oid word_id); [|done].
  destruct (session st !! "google_id"); [|done].
  by apply update_one_fmap.
Qed.

(** C3, as the code has it: a word id is in at most one of the two vote
    arrays of every user after any sequence of vote requests in which each
    upvote addresses a word its caller has not downvoted at that moment and
    each downvote a word its caller has not upvoted.  The handlers
    themselves do not keep the arrays apart: [upvote_word] leaves every
    [downvotes] array as it is, and [downvote_word] every [upvotes]
    array. *)
Theorem votes_disjoint_one_sided
    (text_search : string → Word → bool) (rs : list Request) (st : State) :
  votes_disjoint st →
  one_sided_votes text_search rs st →
  votes_disjoint (run text_search rs st)
  ∧ (∀ st' word_id,
       downvotes <$> users (db (upvote_word word_id st').1)
       = downvotes <$> users (db st'))
  ∧ (∀ st' word_id,
       upvotes <$> users (db (downvote_word word_id st').1)
       = upvotes <$> users (db st')).
Proof.
  intros Hst Hrs. split_and!.
  - revert st Hst Hrs. induction rs as [|r rs IH]; intros st Hst Hrs;
      [done|].
    destruct Hrs as (Hr & Hside & Hrs). simpl. apply IH; [|done].
    by apply votes_disjoint_step.
  - intros st' word_id. rewrite upvote_word_users.
    by apply users_after_vote_fmap.
  - intros st' word_id. rewrite downvote_word_users.
    by apply users_after_vote_fmap.
Qed.

(** C3 fails as stated: a user who upvotes a word and then downvotes it has
    the id in both arrays. *)
Lemma upvote_then_downvote_in_both :
  let st := run (λ _ _, false) [POST_upvote sample_id; POST_downvote sample_id]
              fresh_state in
  votes_disjoint fresh_state
  ∧ upvotes <$> find_user "g-asha" st = Some [sample_id]
  ∧ downvotes <$> find_user "g-asha" st = Some [sample_id]
  ∧ ¬ votes_disjoint st.
Proof.
  split_and!.
  - by apply (bool_decide_unpack _).
  - reflexivity.
  - reflexivity.
  - by apply (bool_decide_eq_false_1 _).
Qed.

(** ** The home page *)

Global Instance by_votes_trans : Transitive by_votes.
Proof. intros a b c. unfold by_votes. lia. Qed.

Global Instance by_votes_total : Total by_votes.
Proof. intros a b. unfold by_votes. lia. Qed.

Lemma StronglySorted_filter {A} (R : relation A) (P : A → Prop)
    `{∀ x, Decision (P x)} (l : list A) :
  StronglySorted R l → StronglySorted R (filter P l).
Proof.
  induction 1 as [|x l Hl IH Hx]; [constructor|].
  rewrite filter_cons. case_decide; [|done].
  constructor; [done|]. rewrite Forall_forall in *.
  intros y [_ Hy]%list_elem_of_filter. by apply Hx.
Qed.

Lemma StronglySorted_take_drop {A} (R : relation A) (n m : nat) (l : list A) :
  StronglySorted R l → StronglySorted R (take n (drop m l)).
Proof.
  intros Hl. rewrite <-(take_drop m l) in Hl.
  apply StronglySorted_app_1_r in Hl.
  rewrite <-(take_drop n (drop m l)) in Hl.
  by apply StronglySorted_app_1_l in Hl.
Qed.

Lemma sort_match_approved_sorted ws :
  StronglySorted by_votes (sort_match_approved ws).
Proof.
  apply StronglySorted_filter, StronglySorted_merge_sort; apply _.
Qed.

Lemma sort_match_approved_perm ws :
  sort_match_approved ws ≡ₚ filter is_approved ws.
Proof. unfold sort_match_approved. by rewrite merge_sort_Permutation. Qed.

Lemma sort_match_approved_all ws : Forall is_approved (sort_match_approved ws).
Proof.
  apply Forall_forall. by intros w [Hw _]%list_elem_of_filter.
Qed.

Lemma doc_plain (l : list Word) : doc <$> (plain <$> l) = l.
Proof. rewrite <-list_fmap_compose. apply list_fmap_id. Qed.

Lemma doc_annotate ups downs (l : list Word) :
  doc <$> (annotate ups downs <$> l) = l.
Proof. rewrite <-list_fmap_compose. apply list_fmap_id. Qed.

Lemma find_first_filter gid (us : list User) u :
  List.find (has_google_id gid) us = Some u →
  ∃ rest, filter (λ u, google_id u = gid) us = u :: rest.
Proof.
  induction us as [|x us IH]; simpl; [done|].
  rewrite filter_cons. unfold has_google_id at 1. case_bool_decide.
  - intros [= ->]. rewrite decide_True by done. eauto.
  - rewrite decide_False by done. exact IH.
Qed.

Lemma get_words_logged_out st page n :
  logged_out st → requested_page page = Some n → 1 ≤ n →
  get_words page st =
   ({| db := db st; session := <["url" := home_url page]> (session st) |},
    Ok (render_home
      {| json_words :=
           plain <$> take 8 (drop (Z.to_nat ((n - 1) * 8))
                               (sort_match_approved (words (db st))));
         totalPages :=
           math_ceil_div
             (Z.of_nat (length (filter is_approved (words (db st))))) 8;
         pageNo := n;
         next_page := "?page=" +:+ str (n + 1);
         prev_page := "?page=" +:+ str (n - 1) |})).
Proof.
  intros Hout Hpage Hge. red in Hout.
  assert (Hoff : ((n - 1) * 8 <? 0) = false) by (apply Z.ltb_ge; lia).
  unfold get_words, approved_page, skip_limit, int. unfold_M.
  destruct page as [p|]; simpl in *; simplify_eq/=;
    rewrite ?Hpage; simpl;
    (rewrite lookup_insert_ne by done); rewrite Hout; simpl;
    by rewrite ?Hoff.
Qed.

Lemma get_words_logged_in st page n gid u :
  logged_in_as gid st → find_user gid st = Some u →
  requested_page page = Some n → 1 ≤ n →
  get_words page st =
   ({| db := db st; session := <["url" := home_url page]> (session st) |},
    Ok (render_home
      {| json_words :=
           annotate (upvotes u) (downvotes u) <$>
             take 8 (drop (Z.to_nat ((n - 1) * 8))
                       (sort_match_approved (words (db st))));
         totalPages :=
           math_ceil_div
             (Z.of_nat (length (filter is_approved (words (db st))))) 8;
         pageNo := n;
         next_page := "?page=" +:+ str (n + 1);
         prev_page := "?page=" +:+ str (n - 1) |})).
Proof.
  intros Hin Hu Hpage Hge. red in Hin.
  assert (Hoff : ((n - 1) * 8 <? 0) = false) by (apply Z.ltb_ge; lia).
  destruct (find_first_filter _ _ _ Hu) as [rest Hrest].
  unfold get_words, approved_page, skip_limit, int. unfold_M.
  destruct page as [p|]; simpl in *; simplify_eq/=;
    rewrite ?Hpage; simpl;
    repeat first
      [ rewrite lookup_insert_ne by done | rewrite Hin | rewrite Hrest
      | rewrite Hoff | progress simpl ];
    done.
Qed.

Global Instance desc_anti_symm : AntiSymm (=) desc.
Proof. intros a b. unfold desc. lia. Qed.

Lemma by_votes_desc a b : by_votes a b → desc (upvote a) (upvote b).
Proof. unfold by_votes, desc. lia. Qed.

Lemma sorted_upvotes_unique (l : list Word) (ups : list Z) :
  StronglySorted by_votes l → StronglySorted desc ups →
  upvote <$> l ≡ₚ ups → upvote <$> l = ups.
Proof.
  intros Hl Hups Hperm. apply (StronglySorted_unique desc); [|done..].
  eapply StronglySorted_fmap; [|done]. apply by_votes_desc.
Qed.

(** C4: [get_words] lists approved words only, in descending order of
    [upvote] and, among equal counts, descending [_id], in pages of 8 taken
    by offset and limit from that order, which holds all approved words of
    the store; on a store whose approved words have the upvote counts
    10, 9, ..., 1, page 1 holds the counts 10 down to 3 in that order and
    [totalPages] is 2. *)
Theorem get_words_lists_approved
    (st : State) (page : option string) (n : Z) :
  requested_page page = Some n → 1 ≤ n → viewer_known st →
  ∃ pg : Page,
    (get_words page st).2 = Ok (render_home pg)
    ∧ db (get_words page st).1 = db st
    ∧ pageNo pg = n
    ∧ doc <$> json_words pg
      = take 8 (drop (Z.to_nat ((n - 1) * 8))
                  (sort_match_approved (words (db st))))
    ∧ sort_match_approved (words (db st))
      ≡ₚ filter is_approved (words (db st))
    ∧ StronglySorted by_votes (sort_match_approved (words (db st)))
    ∧ Forall is_approved (doc <$> json_words pg)
    ∧ StronglySorted by_votes (doc <$> json_words pg)
    ∧ totalPages pg
      = math_ceil_div
          (Z.of_nat (length (filter is_approved (words (db st))))) 8
    ∧ (upvote <$> filter is_approved (words (db st))
         ≡ₚ [10; 9; 8; 7; 6; 5; 4; 3; 2; 1] →
       n = 1 →
       upvote <$> (doc <$> json_words pg) = [10; 9; 8; 7; 6; 5; 4; 3]
       ∧ totalPages pg = 2).
Proof.
  intros Hpage Hn Hviewer.
  set (shown := take 8 (drop (Z.to_nat ((n - 1) * 8))
                          (sort_match_approved (words (db st))))).
  assert (Hmain : ∃ pg, get_words page st
            = ({| db := db st;
                  session := <["url" := home_url page]> (session st) |},
               Ok (render_home pg))
          ∧ pageNo pg = n
          ∧ doc <$> json_words pg = shown
          ∧ totalPages pg
            = math_ceil_div
                (Z.of_nat (length (filter is_approved (words (db st))))) 8).
  { destruct Hviewer as [Hout|(gid & u & Hin & Hu)].
    - eexists. split; [by apply get_words_logged_out|]. simpl.
      by rewrite doc_plain.
    - eexists. split; [by eapply get_words_logged_in|]. simpl.
      by rewrite doc_annotate. }
  destruct Hmain as (pg & Heq & Hno & Hdoc & Htotal).
  exists pg. rewrite Heq, Hdoc. simpl. split_and!; try done.
  - apply sort_match_approved_perm.
  - apply sort_match_approved_sorted.
  - apply Forall_take, Forall_drop, sort_match_approved_all.
  - apply StronglySorted_take_drop, sort_match_approved_sorted.
  - intros Hten ->. subst shown.
    assert (Hups : upvote <$> sort_match_approved (words (db st))
                   = [10; 9; 8; 7; 6; 5; 4; 3; 2; 1]).
    { apply sorted_upvotes_unique.
      - apply sort_match_approved_sorted.
      - by apply (bool_decide_unpack _).
      - by rewrite sort_match_approved_perm. }
    split.
    + simpl. rewrite drop_0, fmap_take, Hups. done.
    + rewrite Htotal. apply Permutation_length in Hten.
      rewrite length_fmap in Hten. rewrite Hten. done.
Qed.

(** ** Search *)

Section SearchResults.
Variable text_search : string → Word → bool.

Lemma search_page st q page n :
  requested_page page = Some n → 1 ≤ n →
  search text_search (Some q) page st =
   (st,
    Ok (render_home
      {| json_words :=
           plain <$>
             take 2 (drop (Z.to_nat ((n - 1) * 2))
               (merge_sort by_votes
                  (filter (λ w, is_approved w ∧ text_search (lower q) w)
                     (words (db st)))));
         totalPages :=
           math_ceil_div
             (Z.of_nat (length (filter (λ w, text_search (lower q) w)
                                  (words (db st))))) 2;
         pageNo := n;
         next_page := "?search=" +:+ lower q +:+ "?page=" +:+ str (n + 1);
         prev_page := "?search=" +:+ lower q +:+ "?page=" +:+ str (n - 1)
      |})).
Proof.
  intros Hpage Hn.
  assert (Hoff : ((n - 1) * 2 <? 0) = false) by (apply Z.ltb_ge; lia).
  unfold search, skip_limit, int. unfold_M.
  destruct page as [p|]; simpl in *; simplify_eq/=;
    rewrite ?Hpage; simpl; rewrite ?Hoff; simpl;
    by rewrite (Permutation_length (merge_sort_Permutation _ _)).
Qed.
End SearchResults.

(** C5, at the input where the code departs from it: one approved word
    matches the query and so do two pending words.  [search] returns the
    approved word alone, as the claim says, and reports 2 pages where the
    claim says 1: the page count is taken over the matching words of any
    status. *)
Theorem search_counts_unapproved_matches :
  filter (λ w, is_approved w ∧ definition_contains "fix" w)
    (words (db one_approved_match))
  = [defined_word 1 "a clever fix" 3 approved]
  ∧ ∃ pg : Page,
      search definition_contains (Some "fix") None one_approved_match
      = (one_approved_match, Ok (render_home pg))
      ∧ doc <$> json_words pg = [defined_word 1 "a clever fix" 3 approved]
      ∧ totalPages pg = 2.
Proof.
  split; [reflexivity|].
  eexists. split; [by apply (search_page _ _ _ None 1)|].
  split; reflexivity.
Qed.

(** ** Submission *)

Lemma find_None_existsb {A} (p : A → bool) l :
  List.find p l = None → existsb p l = false.
Proof.
  induction l as [|x l IH]; simpl; [done|]. by destruct (p x).
Qed.

Lemma merge_sort_nonempty {A} (R : relation A) `{∀ x y, Decision (R x y)}
    (l : list A) (x : A) :
  ∃ y rest, merge_sort R (l ++ [x]) = y :: rest.
Proof.
  destruct (merge_sort R (l ++ [x])) as [|y rest] eqn:E; [|eauto].
  pose proof (Permutation_length (merge_sort_Permutation R (l ++ [x]))) as Hlen.
  rewrite E, length_app in Hlen. simpl in Hlen. lia.
Qed.

(** C6: for a submission with all required form fields, made in a session
    that holds the author's identity, [postword] appends one word to the
    store with status [pending], both counters 0, the time of the request
    as [postedDate], and as [userHandle] the text [Anonymous] when the form
    has [anonCheck = anonTrue] and the session's [name] otherwise. *)
Theorem postword_creates_pending_word
    (st : State) (form : gmap string string) (now : Z) (oid : N)
    (gid mail : string) :
  Forall (λ key, is_Some (form !! key)) required_fields →
  logged_in_as gid st →
  session st !! "email" = Some mail →
  (form !! "anonCheck" ≠ Some "anonTrue" → is_Some (session st !! "name")) →
  find_word oid st = None →
  ∃ w : Word,
    (postword form now oid st).2 = Ok (redirect "/addword")
    ∧ words (db (postword form now oid st).1) = (words (db st) ++ [w])%list
    ∧ _id w = oid
    ∧ status w = pending
    ∧ upvote w = 0
    ∧ downvote w = 0
    ∧ postedDate w = now
    ∧ userHandle w
      = (if bool_decide (form !! "anonCheck" = Some "anonTrue")
         then "Anonymous" else default "" (session st !! "name"))
    ∧ authorID w = gid
    ∧ word w = field form "word"
    ∧ definition w = field form "def".
Proof.
  intros Hform Hin Hmail Hname Hfresh. unfold required_fields in Hform.
  repeat match goal with
  | H : Forall _ (_ :: _) |- _ =>
      apply Forall_cons in H; destruct H as [[? ?] H]
  end.
  red in Hin. unfold find_word in Hfresh. apply find_None_existsb in Hfresh.
  unfold postword, field. unfold_M. simpl.
  repeat match goal with
  | H : form !! _ = Some _ |- _ => rewrite H; clear H; simpl
  end.
  assert (Hsort : ∀ ws json, ∃ y rest,
            merge_sort by_id (ws ++ [json]) = y :: rest)
    by apply merge_sort_nonempty.
  case_bool_decide as Hanon; simpl.
  - repeat first
      [ rewrite lookup_insert_ne by done | rewrite Hin | rewrite Hmail
      | rewrite Hfresh | progress simpl ].
    match goal with
    | |- context [merge_sort by_id (?ws ++ [?json])] =>
        destruct (Hsort ws json) as (y & rest & ->)
    end.
    simpl. eexists. split_and!; reflexivity.
  - destruct (Hname Hanon) as [handle Hhandle].
    repeat first
      [ rewrite lookup_insert_ne by done | rewrite Hin | rewrite Hmail
      | rewrite Hhandle | rewrite Hfresh | progress simpl ].
    match goal with
    | |- context [merge_sort by_id (?ws ++ [?json])] =>
        destruct (Hsort ws json) as (y & rest & ->)
    end.
    simpl. eexists. split_and!; reflexivity.
Qed.

(** ** Moderation *)

Lemma find_update_one_other {A} (p q : A → bool) (update : A → A) coll d :
  (∀ x, p (update x) = p x) →
  List.find p coll = Some d →
  List.find p (update_one q update coll) = Some d
  ∨ List.find p (update_one q update coll) = Some (update d).
Proof.
  intros Hkey. induction coll as [|x rest IH]; simpl; [done|].
  destruct (q x) eqn:Hq; simpl.
  - rewrite Hkey. destruct (p x); [|by left]. intros [= ->]. by right.
  - destruct (p x); [by left|]. exact IH.
Qed.

Lemma find_app_Some {A} (p : A → bool) (l1 l2 : list A) d :
  List.find p l1 = Some d → List.find p (l1 ++ l2) = Some d.
Proof.
  induction l1 as [|x l1 IH]; simpl; [done|]. by destruct (p x).
Qed.

Lemma moderated_update_one oid oid' update ws :
  (∀ w, _id (update w) = _id w) →
  (∀ w, status w ≠ pending → status (update w) ≠ pending) →
  moderated oid ws → moderated oid (update_one (has_id oid') update ws).
Proof.
  intros Hid Hstatus (w & Hw & Hnp). unfold moderated.
  destruct (find_update_one_other (has_id oid) (has_id oid') update ws w)
    as [H|H]; [|done|by eauto|by eauto].
  intros x. unfold has_id. by rewrite Hid.
Qed.

Lemma moderated_handle ts oid r :
  preserves (on_words (moderated oid)) (handle ts r).
Proof.
  destruct r; simpl; unfold_handlers; repeat preserves_step.
  - apply preserves_words_insert_one. intros ws (w & Hw & Hnp).
    exists w. split; [|done]. by apply find_app_Some.
  - apply preserves_words_update_one. intros ws.
    by apply moderated_update_one.
  - apply preserves_words_update_one. intros ws.
    by apply moderated_update_one.
  - apply preserves_words_update_one. intros ws.
    by apply moderated_update_one.
  - apply preserves_words_update_one. intros ws.
    by apply moderated_update_one.
  - apply preserves_words_update_one. intros ws.
    by apply moderated_update_one.
  - apply preserves_words_update_one. intros ws.
    by apply moderated_update_one.
Qed.

Lemma approve_word_words st action word_id oid :
  parse_oid word_id = Some oid →
  approve_word action word_id st =
   ({| db := {| words :=
                  if bool_decide (action = "approve") then
                    update_one (has_id oid) (set_status approved)
                      (words (db st))
                  else if bool_decide (action = "decline") then
                    update_one (has_id oid) (set_status declined)
                      (words (db st))
                  else words (db st);
                users := users (db st) |};
       session := session st |},
    Ok (redirect "/adminDashboard")).
Proof.
  intros Hoid. unfold approve_word. unfold_M. rewrite Hoid. simpl.
  destruct st as [[ws us] s]. simpl.
  case_bool_decide as Ha; simpl.
  - rewrite bool_decide_eq_false_2; [done|]. by rewrite Ha.
  - by case_bool_decide.
Qed.

(** C7, as the code has it: a word whose status is approved or declined
    is never pending again, whatever requests follow; the status does
    change between approved and declined, as [approve_word] sets it
    whatever it was: approving a declined word makes it approved. *)
Theorem status_never_back_to_pending
    (text_search : string → Word → bool) (rs : list Request) (st : State)
    (oid : N) (w : Word) :
  find_word oid st = Some w → status w ≠ pending →
  (∃ w', find_word oid (run text_search rs st) = Some w'
         ∧ status w' ≠ pending)
  ∧ (∀ st0 word_id oid0 w0,
       parse_oid word_id = Some oid0 → find_word oid0 st0 = Some w0 →
       status <$> find_word oid0 (approve_word "approve" word_id st0).1
       = Some approved).
Proof.
  intros Hw Hnp. split.
  - assert (H : on_words (moderated oid) st) by (exists w; done).
    clear Hw Hnp. revert st H.
    induction rs as [|r rs IH]; intros st H; [done|].
    simpl. apply IH. by apply moderated_handle.
  - intros st0 word_id oid0 w0 Hoid Hw0.
    rewrite (approve_word_words _ _ _ oid0) by done.
    unfold find_word in *. simpl.
    rewrite find_update_one_fmap by done. by rewrite Hw0.
Qed.

(** C7 fails as stated: a declined word that is approved afterwards is on
    the home page. *)
Lemma declined_word_reappears :
  let st := (approve_word "approve" sample_id declined_state).1 in
  status <$> find_word 1 declined_state = Some declined
  ∧ list_approved declined_state = []
  ∧ status <$> find_word 1 st = Some approved
  ∧ list_approved st = [sample_word 1 4 0 approved].
Proof. split_and!; reflexivity. Qed.

(** C9: for a word id that addresses no document of [db.words],
    [approve_word] leaves the store and the session as they are and
    answers with the redirect to the dashboard, for every action, approve
    and decline included. *)
Theorem approve_word_absent_noop
    (st : State) (action word_id : string) (oid : N) :
  parse_oid word_id = Some oid → find_word oid st = None →
  approve_word action word_id st = (st, Ok (redirect "/adminDashboard")).
Proof.
  intros Hoid Habsent. rewrite (approve_word_words _ _ _ oid) by done.
  unfold find_word in Habsent. rewrite !update_one_no_match by done.
  destruct st as [[ws us] s]. simpl.
  by repeat case_bool_decide.
Qed.

(** ** Votes without a session *)

(** C8, at the input where the code departs from it: without a session,
    [upvote_word] and [downvote_word] redirect to the login page and write
    nothing, as the claim says; [undo_upvote] and [undo_downvote] write the
    counter of the word and then raise [KeyError], where the claim says
    they redirect and write nothing. *)
Theorem undo_without_session_raises :
  (∀ st word_id, logged_out st →
     upvote_word word_id st = (st, Ok (redirect "/user"))
     ∧ downvote_word word_id st = (st, Ok (redirect "/user")))
  ∧ logged_out anonymous_state
  ∧ (undo_upvote sample_id anonymous_state).2 = Raise (KeyError "google_id")
  ∧ upvote <$> find_word 1 anonymous_state = Some 0
  ∧ upvote <$> find_word 1 (undo_upvote sample_id anonymous_state).1
    = Some (-1)
  ∧ (undo_downvote sample_id anonymous_state).2
    = Raise (KeyError "google_id")
  ∧ downvote <$> find_word 1 anonymous_state = Some 0
  ∧ downvote <$> find_word 1 (undo_downvote sample_id anonymous_state).1
    = Some (-1).
Proof.
  split_and!; try reflexivity.
  intros st word_id Hout. split.
  - by apply upvote_word_logged_out.
  - by apply downvote_word_logged_out.
Qed.

(** C10: without a session, [undo_upvote] on the id of a word of the store
    subtracts 1 from the word's [upvote] counter and then raises [KeyError]
    on the session's [google_id]: the request fails with [db.words]
    written and [db.users] and the session as they were. *)
Theorem undo_upvote_error_not_atomic
    (st : State) (word_id : string) (oid : N) (w : Word) :
  logged_out st → parse_oid word_id = Some oid →
  find_word oid st = Some w →
  (undo_upvote word_id st).2 = Raise (KeyError "google_id")
  ∧ upvote <$> find_word oid (undo_upvote word_id st).1
    = Some (upvote w - 1)
  ∧ words (db (undo_upvote word_id st).1)
    = update_one (has_id oid) (inc_upvote (-1)) (words (db st))
  ∧ words (db (undo_upvote word_id st).1) ≠ words (db st)
  ∧ users (db (undo_upvote word_id st).1) = users (db st)
  ∧ session (undo_upvote word_id st).1 = session st.
Proof.
  intros Hout Hoid Hw.
  rewrite (undo_upvote_logged_out st word_id oid) by done. simpl.
  assert (Hafter : upvote <$> find_word oid (word_write oid (inc_upvote (-1)) st)
                   = Some (upvote w - 1)).
  { rewrite find_word_word_write by done. by rewrite Hw. }
  split_and!; try done.
  intros Heq. unfold find_word in *. simpl in Hafter.
  rewrite Heq, Hw in Hafter. simpl in Hafter. injection Hafter. lia.
Qed.

(** ** The theorems at sample inputs *)

Lemma upvote_word_counts_and_records_witness :
  logged_in_as "g-asha" fresh_state
  ∧ parse_oid sample_id = Some 1%N
  ∧ upvote <$> find_word 1 (upvote_word sample_id fresh_state).1 = Some 1
  ∧ upvotes <$> find_user "g-asha" (upvote_word sample_id fresh_state).1
    = Some [sample_id]
  ∧ upvote
      <$> find_word 1
            (upvote_word sample_id (upvote_word sample_id fresh_state).1).1
    = Some 2.
Proof.
  pose proof (upvote_word_counts_and_records fresh_state sample_id "g-asha"
                1 0 [] eq_refl eq_refl eq_refl eq_refl)
    as (H1 & H2 & _ & _ & _ & _ & H3 & _).
  split_and!; [reflexivity | reflexivity | exact H1 | exact H2 | exact H3].
Defined.

Lemma counters_nonneg_preserved_witness :
  counters_nonneg voted_state
  ∧ counters_nonneg
      (after definition_contains (POST_undo_upvote sample_id) voted_state)
  ∧ counters_nonneg fresh_state
  ∧ upvote
      <$> find_word 1
            (after definition_contains (POST_undo_upvote sample_id)
               fresh_state)
    = Some (-1)
  ∧ ¬ counters_nonneg
        (after definition_contains (POST_undo_upvote sample_id) fresh_state).
Proof.
  assert (H0 : counters_nonneg voted_state) by (by apply (bool_decide_unpack _)).
  assert (H1 : counters_nonneg fresh_state) by (by apply (bool_decide_unpack _)).
  destruct (counters_nonneg_preserved definition_contains
              (POST_undo_upvote sample_id) voted_state H0) as (Hkeep & _ & _).
  destruct (counters_nonneg_preserved definition_contains
              (POST_undo_upvote sample_id) fresh_state H1) as (_ & Hundo & _).
  destruct (Hundo sample_id 1%N (sample_word 1 0 0 approved)
              eq_refl eq_refl eq_refl) as (Hminus & Hneg).
  split_and!; [exact H0 | | exact H1 | exact Hminus | exact (Hneg eq_refl)].
  apply Hkeep.
  - intros word_id oid w [= <-] [= <-] [= <-]. simpl. lia.
  - intros word_id oid w Hr. discriminate Hr.
Defined.

Lemma votes_disjoint_one_sided_witness :
  votes_disjoint fresh_state
  ∧ votes_disjoint
      (run definition_contains
         [POST_upvote sample_id; POST_undo_upvote sample_id;
          POST_downvote sample_id] fresh_state).
Proof.
  assert (H0 : votes_disjoint fresh_state) by (by apply (bool_decide_unpack _)).
  split; [exact H0|].
  apply (votes_disjoint_one_sided definition_contains
           [POST_upvote sample_id; POST_undo_upvote sample_id;
            POST_downvote sample_id] fresh_state H0).
  split; [reflexivity|]. split.
  { intros gid u Hin Hu. vm_compute in Hin. injection Hin as <-.
    vm_compute in Hu. injection Hu as <-. simpl. apply not_elem_of_nil. }
  split; [reflexivity|]. split; [exact I|].
  split; [reflexivity|]. split; [|exact I].
  intros gid u Hin Hu. vm_compute in Hin. injection Hin as <-.
  vm_compute in Hu. injection Hu as <-. simpl. apply not_elem_of_nil.
Defined.

Lemma get_words_lists_approved_witness :
  requested_page None = Some 1
  ∧ viewer_known ten_approved
  ∧ ∃ pg : Page,
      (get_words None ten_approved).2 = Ok (render_home pg)
      ∧ upvote <$> (doc <$> json_words pg) = [10; 9; 8; 7; 6; 5; 4; 3]
      ∧ totalPages pg = 2.
Proof.
  assert (Hv : viewer_known ten_approved) by (left; reflexivity).
  destruct (get_words_lists_approved ten_approved None 1 eq_refl
              ltac:(lia) Hv)
    as (pg & Hpg & _ & _ & _ & _ & _ & _ & _ & _ & Hten).
  split_and!; [reflexivity | exact Hv |].
  exists pg. split; [exact Hpg|].
  apply Hten; [|reflexivity]. by apply (bool_decide_unpack _).
Defined.

Lemma postword_creates_pending_word_witness :
  Forall (λ key, is_Some (sample_form !! key)) required_fields
  ∧ logged_in_as "g-asha" author_state
  ∧ ∃ w : Word,
      words (db (postword sample_form 1700000000 7 author_state).1)
      = (words (db author_state) ++ [w])%list
      ∧ status w = pending ∧ upvote w = 0 ∧ downvote w = 0
      ∧ postedDate w = 1700000000 ∧ userHandle w = "Asha".
Proof.
  assert (Hform : Forall (λ key, is_Some (sample_form !! key)) required_fields)
    by (by apply (bool_decide_unpack _)).
  destruct (postword_creates_pending_word author_state sample_form
              1700000000 7 "g-asha" "asha@example.org" Hform
              eq_refl eq_refl (λ _, ex_intro _ "Asha" eq_refl) eq_refl)
    as (w & _ & Hws & _ & Hs & Hu & Hd & Ht & Hh & _).
  split_and!; [exact Hform | reflexivity |].
  exists w. split_and!; [exact Hws | exact Hs | exact Hu | exact Hd
                        | exact Ht | exact Hh].
Defined.

Lemma status_never_back_to_pending_witness :
  find_word 1 declined_state = Some (sample_word 1 4 0 declined)
  ∧ ∃ w',
      find_word 1
        (run definition_contains
           [POST_adminDashboard "approve" sample_id; GET_home None;
            POST_adminDashboard "decline" sample_id] declined_state)
      = Some w'
      ∧ status w' ≠ pending.
Proof.
  split; [reflexivity|].
  apply (status_never_back_to_pending definition_contains
           [POST_adminDashboard "approve" sample_id; GET_home None;
            POST_adminDashboard "decline" sample_id]
           declined_state 1 (sample_word 1 4 0 declined) eq_refl).
  simpl. discriminate.
Defined.

Lemma approve_word_absent_noop_witness :
  parse_oid absent_id = Some 2%N
  ∧ find_word 2 fresh_state = None
  ∧ approve_word "approve" absent_id fresh_state
    = (fresh_state, Ok (redirect "/adminDashboard"))
  ∧ approve_word "decline" absent_id fresh_state
    = (fresh_state, Ok (redirect "/adminDashboard")).
Proof.
  split_and!; [reflexivity | reflexivity | |].
  - apply (approve_word_absent_noop fresh_state "approve" absent_id 2);
      reflexivity.
  - apply (approve_word_absent_noop fresh_state "decline" absent_id 2);
      reflexivity.
Defined.

Lemma undo_upvote_error_not_atomic_witness :
  logged_out anonymous_state
  ∧ find_word 1 anonymous_state = Some (sample_word 1 0 0 approved)
  ∧ (undo_upvote sample_id anonymous_state).2 = Raise (KeyError "google_id")
  ∧ upvote <$> find_word 1 (undo_upvote sample_id anonymous_state).1
    = Some (-1)
  ∧ users (db (undo_upvote sample_id anonymous_state).1)
    = users (db anonymous_state).
Proof.
  pose proof (undo_upvote_error_not_atomic anonymous_state sample_id 1
                (sample_word 1 0 0 approved) eq_refl eq_refl eq_refl)
    as (H1 & H2 & _ & _ & H3 & _).
  split_and!; [reflexivity | reflexivity | exact H1 | exact H2 | exact H3].
Defined.

(** * Further properties *)

(** ** Votes of a logged-in user *)

Lemma upvote_word_result st word_id oid gid :
  logged_in_as gid st → parse_oid word_id = Some oid →
  upvote_word word_id st
  = (vote_writes oid (inc_upvote 1) gid (set_upvotes (addToSet word_id)) st,
     redirect_back st).
Proof.
  intros Hin Hoid. unfold upvote_word, redirect_back. unfold_M.
  rewrite (session_contains_logged_in gid st Hin). simpl.
  rewrite Hoid. simpl. red in Hin. rewrite Hin. simpl.
  by destruct (session st !! "url").
Qed.

Lemma downvote_word_result st word_id oid gid :
  logged_in_as gid st → parse_oid word_id = Some oid →
  downvote_word word_id st
  = (vote_writes oid (inc_downvote 1) gid
       (set_downvotes (addToSet word_id)) st,
     redirect_back st).
Proof.
  intros Hin Hoid. unfold downvote_word, redirect_back. unfold_M.
  rewrite (session_contains_logged_in gid st Hin). simpl.
  rewrite Hoid. simpl. red in Hin. rewrite Hin. simpl.
  by destruct (session st !! "url").
Qed.

Lemma undo_upvote_result st word_id oid gid :
  logged_in_as gid st → parse_oid word_id = Some oid →
  undo_upvote word_id st
  = (vote_writes oid (inc_upvote (-1)) gid (set_upvotes (pull word_id)) st,
     redirect_back st).
Proof.
  intros Hin Hoid. unfold undo_upvote, redirect_back. unfold_M.
  rewrite Hoid. simpl. red in Hin. rewrite Hin. simpl.
  by destruct (session st !! "url").
Qed.

Lemma undo_downvote_result st word_id oid gid :
  logged_in_as gid st → parse_oid word_id = Some oid →
  undo_downvote word_id st
  = (vote_writes oid (inc_downvote (-1)) gid
       (set_downvotes (pull word_id)) st,
     redirect_back st).
Proof.
  intros Hin Hoid. unfold undo_downvote, redirect_back. unfold_M.
  rewrite Hoid. simpl. red in Hin. rewrite Hin. simpl.
  by destruct (session st !! "url").
Qed.

(** X1: for a logged-in user and a word of the store, [downvote_word] adds
    1 to the word's [downvote] counter, leaves its [upvote] counter, and
    adds the word id to the user's [downvotes] array with set semantics; a
    second call adds 1 again and leaves the array as it was. *)
Theorem downvote_word_counts_and_records
    (st : State) (word_id gid : string) (oid : N) (w : Word) (u : User) :
  logged_in_as gid st →
  parse_oid word_id = Some oid →
  find_word oid st = Some w →
  find_user gid st = Some u →
  let st1 := (downvote_word word_id st).1 in
  let st2 := (downvote_word word_id st1).1 in
  find_word oid st1 = Some (inc_downvote 1 w)
  ∧ downvote <$> find_word oid st1 = Some (downvote w + 1)
  ∧ upvote <$> find_word oid st1 = Some (upvote w)
  ∧ downvotes <$> find_user gid st1 = Some (addToSet word_id (downvotes u))
  ∧ upvotes <$> find_user gid st1 = Some (upvotes u)
  ∧ word_id ∈ addToSet word_id (downvotes u)
  ∧ (NoDup (downvotes u) → NoDup (addToSet word_id (downvotes u)))
  ∧ downvote <$> find_word oid st2 = Some (downvote w + 1 + 1)
  ∧ downvotes <$> find_user gid st2 = downvotes <$> find_user gid st1.
Proof.
  intros Hin Hoid Hw Hu st1 st2.
  assert (E1 : st1 = vote_writes oid (inc_downvote 1) gid
                       (set_downvotes (addToSet word_id)) st)
    by by apply downvote_word_logged_in.
  assert (Hin1 : logged_in_as gid st1) by by rewrite E1.
  assert (E2 : st2 = vote_writes oid (inc_downvote 1) gid
                       (set_downvotes (addToSet word_id)) st1)
    by by apply downvote_word_logged_in.
  assert (W1 : find_word oid st1 = Some (inc_downvote 1 w)).
  { rewrite E1, find_word_vote_writes by done. by rewrite Hw. }
  assert (U1 : find_user gid st1
               = Some (set_downvotes (addToSet word_id) u)).
  { rewrite E1, find_user_vote_writes by done. by rewrite Hu. }
  split_and!; try done.
  - by rewrite W1.
  - by rewrite W1.
  - by rewrite U1.
  - by rewrite U1.
  - apply addToSet_elem.
  - apply addToSet_NoDup.
  - rewrite E2, find_word_vote_writes, W1 by done. done.
  - rewrite E2, find_user_vote_writes, U1 by done. simpl.
    by rewrite addToSet_idemp.
Qed.

Lemma update_one_undo {A} (matches : A → bool) (f g : A → A) (coll : list A) :
  (∀ d, matches (g d) = matches d) →
  (∀ d, List.find matches coll = Some d → f (g d) = d) →
  update_one matches f (update_one matches g coll) = coll.
Proof.
  intros Hkey. induction coll as [|x rest IH]; simpl; [done|].
  destruct (matches x) eqn:Hx; simpl.
  - intros Hfg. by rewrite Hkey, Hx, Hfg.
  - intros Hfg. rewrite Hx. by rewrite IH.
Qed.

Lemma pull_addToSet (x : string) (arr : list string) :
  x ∉ arr → pull x (addToSet x arr) = arr.
Proof.
  intros Hx. unfold addToSet. rewrite bool_decide_eq_false_2 by done.
  unfold pull. rewrite filter_app, filter_cons_False, filter_nil by naive_solver.
  rewrite app_nil_r. induction arr as [|y arr IH]; [done|].
  apply not_elem_of_cons in Hx as [Hne Hx].
  rewrite filter_cons_True by done. by rewrite IH.
Qed.

Lemma inc_upvote_undo (w : Word) : inc_upvote (-1) (inc_upvote 1 w) = w.
Proof. destruct w. unfold inc_upvote. simpl. f_equal. lia. Qed.

Lemma inc_downvote_undo (w : Word) : inc_downvote (-1) (inc_downvote 1 w) = w.
Proof. destruct w. unfold inc_downvote. simpl. f_equal. lia. Qed.

Lemma vote_writes_undo oid gid on_word off_word on_user off_user st :
  (∀ w, _id (on_word w) = _id w) →
  (∀ u, google_id (on_user u) = google_id u) →
  (∀ w, off_word (on_word w) = w) →
  (∀ u, find_user gid st = Some u → off_user (on_user u) = u) →
  vote_writes oid off_word gid off_user (vote_writes oid on_word gid on_user st)
  = st.
Proof.
  intros Hw Hu Hww Huu. destruct st as [[ws us] s].
  unfold vote_writes, find_user in *. simpl in *. f_equal. f_equal.
  - apply update_one_undo; [|by auto]. intros d. unfold has_id. by rewrite Hw.
  - apply update_one_undo; [|by auto].
    intros d. unfold has_google_id. by rewrite Hu.
Qed.

(** X2: a logged-in user who upvotes a word that is not in their [upvotes]
    array and then undoes the upvote leaves the store and the session
    exactly as they were, whatever their [downvotes] array holds; the same
    holds for a downvote of a word that is not in their [downvotes] array
    and its undo. *)
Theorem vote_then_undo_restores
    (st : State) (word_id gid : string) (oid : N) :
  logged_in_as gid st →
  parse_oid word_id = Some oid →
  ((∀ u, find_user gid st = Some u → word_id ∉ upvotes u) →
   (undo_upvote word_id (upvote_word word_id st).1).1 = st)
  ∧ ((∀ u, find_user gid st = Some u → word_id ∉ downvotes u) →
     (undo_downvote word_id (downvote_word word_id st).1).1 = st).
Proof.
  intros Hin Hoid. split.
  - intros Hup.
    rewrite (upvote_word_logged_in st word_id oid gid) by done.
    rewrite (undo_upvote_logged_in _ word_id oid gid) by done.
    apply vote_writes_undo; try done.
    + apply inc_upvote_undo.
    + intros u Hu. destruct u. unfold set_upvotes. simpl. f_equal.
      apply pull_addToSet. by apply (Hup _ Hu).
  - intros Hdown.
    rewrite (downvote_word_logged_in st word_id oid gid) by done.
    rewrite (undo_downvote_logged_in _ word_id oid gid) by done.
    apply vote_writes_undo; try done.
    + apply inc_downvote_undo.
    + intros u Hu. destruct u. unfold set_downvotes. simpl. f_equal.
      apply pull_addToSet. by apply (Hdown _ Hu).
Qed.

(** X3: for a logged-in user with a document in [db.users] and a word of
    the store, [undo_upvote] takes 1 from the word's [upvote] counter and
    removes every occurrence of the word id from the user's [upvotes]
    array, and [undo_downvote] does the same on the [downvote] counter and
    the [downvotes] array; neither touches the other counter or the other
    array. *)
Theorem undo_removes_vote
    (st : State) (word_id gid : string) (oid : N) (w : Word) (u : User) :
  logged_in_as gid st →
  parse_oid word_id = Some oid →
  find_word oid st = Some w →
  find_user gid st = Some u →
  (find_word oid (undo_upvote word_id st).1 = Some (inc_upvote (-1) w)
   ∧ upvote (inc_upvote (-1) w) = upvote w - 1
   ∧ downvote (inc_upvote (-1) w) = downvote w
   ∧ upvotes <$> find_user gid (undo_upvote word_id st).1
     = Some (pull word_id (upvotes u))
   ∧ downvotes <$> find_user gid (undo_upvote word_id st).1
     = Some (downvotes u)
   ∧ word_id ∉ pull word_id (upvotes u))
  ∧ (find_word oid (undo_downvote word_id st).1 = Some (inc_downvote (-1) w)
     ∧ downvote (inc_downvote (-1) w) = downvote w - 1
     ∧ upvote (inc_downvote (-1) w) = upvote w
     ∧ downvotes <$> find_user gid (undo_downvote word_id st).1
       = Some (pull word_id (downvotes u))
     ∧ upvotes <$> find_user gid (undo_downvote word_id st).1
       = Some (upvotes u)
     ∧ word_id ∉ pull word_id (downvotes u)).
Proof.
  intros Hin Hoid Hw Hu. split.
  - rewrite (undo_upvote_logged_in st word_id oid gid) by done.
    rewrite find_word_vote_writes, find_user_vote_writes, Hw, Hu by done.
    split_and!; try done. apply pull_not_elem.
  - rewrite (undo_downvote_logged_in st word_id oid gid) by done.
    rewrite find_word_vote_writes, find_user_vote_writes, Hw, Hu by done.
    split_and!; try done. apply pull_not_elem.
Qed.

(** X4: the vote handlers do not check that the word exists.  For a
    logged-in user and a well-formed id that addresses no document,
    [upvote_word] and [downvote_word] leave [db.words] as it is and still
    add the id to the user's array. *)
Theorem vote_on_absent_word_is_recorded
    (st : State) (word_id gid : string) (oid : N) (u : User) :
  logged_in_as gid st →
  parse_oid word_id = Some oid →
  find_word oid st = None →
  find_user gid st = Some u →
  (words (db (upvote_word word_id st).1) = words (db st)
   ∧ upvotes <$> find_user gid (upvote_word word_id st).1
     = Some (addToSet word_id (upvotes u))
   ∧ word_id ∈ addToSet word_id (upvotes u))
  ∧ (words (db (downvote_word word_id st).1) = words (db st)
     ∧ downvotes <$> find_user gid (downvote_word word_id st).1
       = Some (addToSet word_id (downvotes u))
     ∧ word_id ∈ addToSet word_id (downvotes u)).
Proof.
  intros Hin Hoid Hw Hu. split.
  - rewrite (upvote_word_logged_in st word_id oid gid) by done.
    rewrite find_user_vote_writes, Hu by done.
    split_and!; [|done|apply addToSet_elem].
    simpl. by apply update_one_no_match.
  - rewrite (downvote_word_logged_in st word_id oid gid) by done.
    rewrite find_user_vote_writes, Hu by done.
    split_and!; [|done|apply addToSet_elem].
    simpl. by apply update_one_no_match.
Qed.

(** ** The return-to address *)

Lemma answers_ret {A} (P : A → Prop) (a : A) : P a → answers P (mret a).
Proof. by intros H st. Qed.

Lemma answers_bind {A B} (P : B → Prop) (m : M A) (f : A → M B) :
  (∀ a, answers P (f a)) → answers P (m ≫= f).
Proof.
  intros Hf st. unfold mbind, M_bind.
  destruct (m st) as [st' [a|e]]; [apply Hf|done].
Qed.

Lemma try_except_answers {A} (body : M A) (r : A) (st : State) :
  answers (λ a, a = r) body → (try_except body (mret r) st).2 = Ok r.
Proof.
  intros Hb. unfold try_except. specialize (Hb st).
  destruct (body st) as [st' [a|e]]; simpl in *; [by subst|done].
Qed.

Lemma session_set_then {A} (key v : string) (m : M A) (st : State) :
  preserves (λ s, s = {| db := db st; session := <[key := v]> (session st) |}) m →
  ((session_set key v ≫= λ _, m) st).1
  = {| db := db st; session := <[key := v]> (session st) |}.
Proof. intros Hm. unfold session_set. unfold_M. simpl. by apply Hm. Qed.

Lemma get_words_state (page : option string) (st : State) :
  (get_words page st).1
  = {| db := db st; session := <["url" := home_url page]> (session st) |}.
Proof.
  destruct page as [p|]; unfold get_words, home_url;
    apply session_set_then; unfold_handlers; repeat preserves_step.
Qed.

Lemma preserves_session_put_db (s : gmap string string) (d : Db) :
  preserves (λ st, session st = s) (put_db d).
Proof. by intros st H. Qed.

Ltac preserves_session_step :=
  first [ preserves_step | apply preserves_session_put_db ].

Lemma postword_session form now oid (st : State) :
  session (postword form now oid st).1 = <["url" := "/addword"]> (session st).
Proof.
  unfold postword.
  assert (H : ∀ m : M Response,
    preserves (λ s, session s = <["url" := "/addword"]> (session st)) m →
    session ((session_set "url" "/addword" ≫= λ _, m) st).1
    = <["url" := "/addword"]> (session st)).
  { intros m Hm. unfold session_set. unfold_M. simpl. by apply Hm. }
  apply H. unfold_handlers.
  unfold words_insert_one, users_update_one.
  repeat preserves_session_step.
Qed.


(** X6: a logged-in vote in a session that holds no return-to address
    makes both of its writes, on the counter of the word and on the array
    of the user, and then raises [KeyError] on [session['url']]: the vote,
    or its undo, is recorded although the request fails.  This holds for
    each of the four vote handlers. *)
Theorem vote_without_return_address
    (st : State) (word_id gid : string) (oid : N) (w : Word) (u : User) :
  logged_in_as gid st →
  session st !! "url" = None →
  parse_oid word_id = Some oid →
  find_word oid st = Some w →
  find_user gid st = Some u →
  ((upvote_word word_id st).2 = Raise (KeyError "url")
   ∧ upvote <$> find_word oid (upvote_word word_id st).1
     = Some (upvote w + 1)
   ∧ upvotes <$> find_user gid (upvote_word word_id st).1
     = Some (addToSet word_id (upvotes u)))
  ∧ ((downvote_word word_id st).2 = Raise (KeyError "url")
     ∧ downvote <$> find_word oid (downvote_word word_id st).1
       = Some (downvote w + 1)
     ∧ downvotes <$> find_user gid (downvote_word word_id st).1
       = Some (addToSet word_id (downvotes u)))
  ∧ ((undo_upvote word_id st).2 = Raise (KeyError "url")
     ∧ upvote <$> find_word oid (undo_upvote word_id st).1
       = Some (upvote w - 1)
     ∧ upvotes <$> find_user gid (undo_upvote word_id st).1
       = Some (pull word_id (upvotes u)))
  ∧ ((undo_downvote word_id st).2 = Raise (KeyError "url")
     ∧ downvote <$> find_word oid (undo_downvote word_id st).1
       = Some (downvote w - 1)
     ∧ downvotes <$> find_user gid (undo_downvote word_id st).1
       = Some (pull word_id (downvotes u))).
Proof.
  intros Hin Hurl Hoid Hw Hu.
  rewrite (upvote_word_result st word_id oid gid),
    (downvote_word_result st word_id oid gid),
    (undo_upvote_result st word_id oid gid),
    (undo_downvote_result st word_id oid gid) by done.
  simpl. unfold redirect_back. rewrite Hurl.
  rewrite !find_word_vote_writes, !find_user_vote_writes, Hw, Hu by done.
  done.
Qed.

(** ** Submission: failures and the back-reference *)

(** X7: [postword] never fails: whatever the form and the session hold, it
    answers with the redirect to the submission form, every exception of
    its body being caught, and it leaves [/addword] in the session as the
    return-to address. *)
Theorem postword_always_redirects
    (st : State) (form : gmap string string) (now : Z) (oid : N) :
  (postword form now oid st).2 = Ok (redirect "/addword")
  ∧ session (postword form now oid st).1 !! "url" = Some "/addword".
Proof.
  split.
  - unfold postword. unfold mbind at 1. unfold M_bind.
    destruct (session_set "url" "/addword" st) as [st' [[]|e]] eqn:E;
      [|by unfold session_set in E; unfold_M].
    apply try_except_answers.
    repeat first [ apply answers_bind; intros ? | progress cbv zeta ].
    by apply answers_ret.
  - rewrite postword_session. by rewrite lookup_insert_eq.
Qed.

Ltac field_present form key :=
  destruct (form !! key) as [?|] eqn:?; simpl; [try congruence|done].

(** X8: a submission that cannot be completed writes nothing to the store:
    when a required form field is missing, or the session holds no
    [google_id], [postword] leaves [db.words] and [db.users] as they
    are. *)
Theorem postword_failure_writes_nothing
    (st : State) (form : gmap string string) (now : Z) (oid : N) :
  (∃ key, key ∈ required_fields ∧ form !! key = None) ∨ logged_out st →
  db (postword form now oid st).1 = db st.
Proof.
  intros Hbad. unfold postword. unfold_M. simpl.
  assert (Hkeys : ∀ key, key ∈ required_fields → form !! key = None →
            key = "word" ∨ key = "language" ∨ key = "part_of_speech"
            ∨ key = "gender" ∨ key = "conjugates" ∨ key = "usage_example"
            ∨ key = "synonyms" ∨ key = "antonyms" ∨ key = "region"
            ∨ key = "uploaded_zip_code" ∨ key = "def").
  { intros key Hkey _. unfold required_fields in Hkey.
    repeat (apply elem_of_cons in Hkey as [->|Hkey]; [tauto|]).
    by apply elem_of_nil in Hkey. }
  destruct Hbad as [(key & Hkey & Hnone)|Hout].
  - specialize (Hkeys key Hkey Hnone).
    field_present form "word". field_present form "language".
    field_present form "part_of_speech". field_present form "gender".
    field_present form "conjugates". field_present form "usage_example".
    field_present form "synonyms". field_present form "antonyms".
    field_present form "region". field_present form "uploaded_zip_code".
    field_present form "def".
    repeat (destruct Hkeys as [->|Hkeys]; [congruence|]).
    subst key. congruence.
  - red in Hout.
    destruct (form !! "word"); simpl; [|done].
    destruct (form !! "language"); simpl; [|done].
    destruct (form !! "part_of_speech"); simpl; [|done].
    destruct (form !! "gender"); simpl; [|done].
    destruct (form !! "conjugates"); simpl; [|done].
    destruct (form !! "usage_example"); simpl; [|done].
    destruct (form !! "synonyms"); simpl; [|done].
    destruct (form !! "antonyms"); simpl; [|done].
    destruct (form !! "region"); simpl; [|done].
    destruct (form !! "uploaded_zip_code"); simpl; [|done].
    destruct (form !! "def"); simpl; [|done].
    rewrite lookup_insert_ne by done. by rewrite Hout.
Qed.

Global Instance by_id_trans : Transitive by_id.
Proof. intros a b c. unfold by_id. lia. Qed.

Global Instance by_id_total : Total by_id.
Proof. intros a b. unfold by_id. lia. Qed.

Lemma merge_sort_by_id_head (l : list Word) (y : Word) (rest : list Word) :
  merge_sort by_id l = y :: rest →
  y ∈ l ∧ ∀ z, z ∈ l → (_id z ≤ _id y)%N.
Proof.
  intros E.
  pose proof (merge_sort_Permutation by_id l) as Hperm.
  pose proof (StronglySorted_merge_sort by_id l) as Hsort.
  rewrite E in Hperm, Hsort. split.
  - rewrite <-Hperm. by left.
  - intros z Hz. rewrite <-Hperm in Hz.
    apply StronglySorted_cons in Hsort as [Hall _].
    apply elem_of_cons in Hz as [->|Hz]; [done|].
    rewrite Forall_forall in Hall. by apply Hall.
Qed.

Lemma postword_valid (st : State) form now oid :
  valid_submission form oid st →
  ∃ y rest,
    merge_sort by_id
      (words (db st) ++ [submitted_word form (session st) now oid])
    = y :: rest
    ∧ postword form now oid st
      = ({| db := {| words := words (db st)
                              ++ [submitted_word form (session st) now oid];
                     users := update_one
                                (has_google_id
                                   (default "" (session st !! "google_id")))
                                (push_words_author (_id y))
                                (users (db st)) |};
            session := <["url" := "/addword"]> (session st) |},
         Ok (redirect "/addword")).
Proof.
  intros (Hform & [gid Hin] & [mail Hmail] & Hname & Hfresh).
  unfold required_fields in Hform.
  repeat match goal with
  | H : Forall _ (_ :: _) |- _ =>
      apply Forall_cons in H; destruct H as [[? ?] H]
  end.
  unfold find_word in Hfresh. apply find_None_existsb in Hfresh.
  destruct (merge_sort_nonempty by_id (words (db st))
              (submitted_word form (session st) now oid))
    as (y & rest & Hsort).
  exists y, rest. split; [done|]. revert Hsort.
  unfold postword, submitted_word, field. unfold_M. simpl.
  repeat match goal with
  | H : form !! _ = Some _ |- _ => rewrite H; clear H; simpl
  end.
  case_bool_decide as Hanon; simpl.
  - repeat first
      [ rewrite lookup_insert_ne by done | rewrite Hin | rewrite Hmail
      | rewrite Hfresh | progress simpl ].
    intros ->. done.
  - destruct (Hname Hanon) as [handle Hhandle].
    repeat first
      [ rewrite lookup_insert_ne by done | rewrite Hin | rewrite Hmail
      | rewrite Hhandle | rewrite Hfresh | progress simpl ].
    intros ->. done.
Qed.

(** X9: the back-reference [postword] appends to the author's
    [words_author] array is the largest [_id] of the collection after the
    insert, not the id of the inserted word as such.  It is the id of the
    new word when that id is above every id of the store; when some older
    word has a larger id, the id of an older word is appended instead. *)
Theorem postword_back_reference
    (st : State) (form : gmap string string) (now : Z) (oid : N)
    (gid : string) (u : User) :
  valid_submission form oid st →
  logged_in_as gid st →
  find_user gid st = Some u →
  ∃ i : N,
    words_author <$> find_user gid (postword form now oid st).1
    = Some (words_author u ++ [i])%list
    ∧ (oid ≤ i)%N
    ∧ (∀ w, w ∈ words (db st) → (_id w ≤ i)%N)
    ∧ (Forall (λ w, (_id w < oid)%N) (words (db st)) → i = oid)
    ∧ (Exists (λ w, (oid < _id w)%N) (words (db st)) →
       i ≠ oid ∧ ∃ w, w ∈ words (db st) ∧ _id w = i).
Proof.
  intros Hvalid Hin Hu.
  destruct (postword_valid st form now oid Hvalid) as (y & rest & Hsort & ->).
  apply merge_sort_by_id_head in Hsort as [Hy Hmax].
  red in Hin. rewrite Hin. simpl.
  exists (_id y). split_and!.
  - unfold find_user in *. simpl.
    rewrite find_update_one_fmap by done. by rewrite Hu.
  - apply (Hmax (submitted_word form (session st) now oid)).
    apply elem_of_app. right. by apply list_elem_of_singleton.
  - intros w Hw. apply Hmax, elem_of_app. by left.
  - intros Hall. apply elem_of_app in Hy as [Hy|Hy].
    + rewrite Forall_forall in Hall. specialize (Hall y Hy).
      specialize (Hmax (submitted_word form (session st) now oid)).
      simpl in Hmax. 
      assert ((oid ≤ _id y)%N); [|lia].
      apply Hmax, elem_of_app. right. by apply list_elem_of_singleton.
    + apply list_elem_of_singleton in Hy. by subst.
  - intros (w & Hw & Hlt)%Exists_exists.
    assert (Hwy : (_id w ≤ _id y)%N) by (apply Hmax, elem_of_app; by left).
    assert (Hne : _id y ≠ oid) by lia. split; [done|].
    apply elem_of_app in Hy as [Hy|Hy]; [by exists y|].
    apply list_elem_of_singleton in Hy. by subst.
Qed.

Lemma dash_result (st : State) :
  dash st = (st, Ok (render_dashboard (pending_words st))).
Proof. by destruct st as [[ws us] s]. Qed.

(** X10: a word that was just submitted waits for moderation: after a
    submission that completes, the dashboard lists the words that were
    pending before followed by the new word, and the approved words the
    home page draws from are the same as before. *)
Theorem postword_then_dash
    (st : State) (form : gmap string string) (now : Z) (oid : N) :
  valid_submission form oid st →
  let st' := (postword form now oid st).1 in
  (dash st').2
  = Ok (render_dashboard
          (pending_words st
           ++ [submitted_word form (session st) now oid])%list)
  ∧ (dash st').1 = st'
  ∧ filter is_approved (words (db st')) = filter is_approved (words (db st))
  ∧ sort_match_approved (words (db st'))
    ≡ₚ sort_match_approved (words (db st))
  ∧ submitted_word form (session st) now oid
    ∉ sort_match_approved (words (db st')).
Proof.
  intros Hvalid st'. subst st'.
  destruct (postword_valid st form now oid Hvalid) as (y & rest & _ & ->).
  rewrite dash_result. unfold pending_words. simpl.
  assert (Hpend : filter is_pending
                    (words (db st)
                     ++ [submitted_word form (session st) now oid])%list
                  = (filter is_pending (words (db st))
                     ++ [submitted_word form (session st) now oid])%list).
  { rewrite filter_app. f_equal. }
  assert (Happr : filter is_approved
                    (words (db st)
                     ++ [submitted_word form (session st) now oid])%list
                  = filter is_approved (words (db st))).
  { rewrite filter_app. rewrite filter_cons_False by done.
    by rewrite filter_nil, app_nil_r. }
  split_and!; try done.
  - by rewrite Hpend.
  - by rewrite !sort_match_approved_perm, Happr.
  - intros Hin. rewrite sort_match_approved_perm in Hin.
    by apply list_elem_of_filter in Hin as [Hs _].
Qed.

(** ** Logging in and out *)

Lemma find_None_filter gid (us : list User) :
  List.find (has_google_id gid) us = None →
  filter (λ u, google_id u = gid) us = [].
Proof.
  induction us as [|x us IH]; simpl; [done|].
  rewrite filter_cons. unfold has_google_id at 1. case_bool_decide; [done|].
  rewrite decide_False by done. exact IH.
Qed.

Lemma callback_result (st : State) (s : string) (id_info : IdInfo) :
  session st !! "state" = Some s →
  callback (Some s) id_info st
  = ({| db := {| words := words (db st);
                 users := users_after_login id_info (users (db st)) |};
        session := login_session id_info (session st) |},
     Ok (redirect "/user/protected_area")).
Proof.
  intros Hs. unfold callback, users_after_login, login_session. unfold_M.
  rewrite Hs. simpl. rewrite bool_decide_eq_true_2 by done. simpl.
  destruct (List.find (has_google_id (sub id_info)) (users (db st)))
    as [u|] eqn:Hu.
  - destruct (find_first_filter _ _ _ Hu) as [rest ->]. simpl.
    by destruct st as [[ws us] ss].
  - by rewrite (find_None_filter _ _ Hu).
Qed.

Lemma find_app_None {A} (p : A → bool) (l1 l2 : list A) :
  List.find p l1 = None → List.find p (l1 ++ l2) = List.find p l2.
Proof.
  induction l1 as [|x l1 IH]; simpl; [done|]. by destruct (p x).
Qed.

Lemma users_after_login_find id_info us :
  is_Some (List.find (has_google_id (sub id_info)) (users_after_login id_info us)).
Proof.
  unfold users_after_login.
  destruct (List.find _ us) as [u|] eqn:Hu; [by rewrite Hu|].
  rewrite find_app_None by done. simpl. unfold has_google_id. simpl.
  rewrite bool_decide_eq_true_2 by done. by eexists.
Qed.

Lemma users_after_login_idemp id_info us :
  users_after_login id_info (users_after_login id_info us)
  = users_after_login id_info us.
Proof.
  destruct (users_after_login_find id_info us) as [u Hu].
  unfold users_after_login at 1. by rewrite Hu.
Qed.

(** X11: a callback whose [state] parameter equals the one kept in the
    session logs the user in: the session then holds the identity, with
    the return-to address and the state untouched, [db.words] is as
    before, and [db.users] has a document for the user, appended with
    empty arrays if there was none and left alone otherwise; logging in a
    second time adds no second document. *)
Theorem callback_logs_in (st : State) (s : string) (id_info : IdInfo) :
  session st !! "state" = Some s →
  let st1 := (callback (Some s) id_info st).1 in
  (callback (Some s) id_info st).2 = Ok (redirect "/user/protected_area")
  ∧ logged_in_as (sub id_info) st1
  ∧ session st1 !! "name" = Some (id_name id_info)
  ∧ session st1 !! "email" = Some (id_email id_info)
  ∧ session st1 !! "url" = session st !! "url"
  ∧ session st1 !! "state" = Some s
  ∧ words (db st1) = words (db st)
  ∧ (find_user (sub id_info) st = None →
     users (db st1) = (users (db st) ++ [new_user id_info])%list)
  ∧ (is_Some (find_user (sub id_info) st) → users (db st1) = users (db st))
  ∧ is_Some (find_user (sub id_info) st1)
  ∧ users (db (callback (Some s) id_info st1).1) = users (db st1).
Proof.
  intros Hs st1. subst st1. rewrite (callback_result st s) by done. simpl.
  unfold logged_in_as, find_user, login_session. simpl.
  split_and!; try done.
  - by repeat (rewrite lookup_insert_ne by done); rewrite lookup_insert_eq.
  - by repeat (rewrite lookup_insert_ne by done); rewrite lookup_insert_eq.
  - by repeat (rewrite lookup_insert_ne by done); rewrite lookup_insert_eq.
  - by repeat (rewrite lookup_insert_ne by done).
  - by repeat (rewrite lookup_insert_ne by done).
  - intros Hnone. unfold users_after_login. by rewrite Hnone.
  - intros [u Hu]. unfold users_after_login. by rewrite Hu.
  - apply users_after_login_find.
  - rewrite (callback_result _ s); simpl.
    + apply users_after_login_idemp.
    + by repeat (rewrite lookup_insert_ne by done).
Qed.

(** X12: a callback that is refused writes nothing.  When the session
    holds no [state] the handler raises [KeyError], when the [state]
    parameter differs from the one in the session it aborts with status
    500, and in every case in which [callback] raises, the store and the
    session are as before. *)
Theorem callback_refused_writes_nothing
    (st : State) (args_state : option string) (id_info : IdInfo) :
  (session st !! "state" = None →
   callback args_state id_info st = (st, Raise (KeyError "state")))
  ∧ (∀ s a, session st !! "state" = Some s → args_state = Some a → a ≠ s →
     callback args_state id_info st = (st, Raise (HTTPException 500)))
  ∧ (∀ e, (callback args_state id_info st).2 = Raise e →
     (callback args_state id_info st).1 = st).
Proof.
  split_and!.
  - intros Hs. unfold callback. unfold_M. by rewrite Hs.
  - intros s a Hs -> Hne. unfold callback. unfold_M. rewrite Hs. simpl.
    rewrite bool_decide_eq_false_2 by done. done.
  - intros e. unfold callback. unfold_M.
    destruct (session st !! "state") as [s|]; simpl; [|done].
    destruct args_state as [a|]; simpl; [|done].
    case_bool_decide; simpl; [|done].
    by destruct (filter _ _).
Qed.

Lemma protected_area_logged_in (st : State) (gid : string) :
  logged_in_as gid st →
  protected_area st = (st, Ok (redirect (default "/" (session st !! "url")))).
Proof.
  intros Hin. unfold protected_area. unfold_M.
  rewrite (session_contains_logged_in gid st Hin). simpl.
  destruct (session st !! "url") as [url|] eqn:Hurl.
  - rewrite bool_decide_eq_true_2 by (by eexists). simpl. by rewrite Hurl.
  - rewrite bool_decide_eq_false_2 by (by intros [? ?]). done.
Qed.

(** X13: logging in brings the user back to where they were.  After
    [userlogin] has put the state of the OAuth flow in the session and the
    callback has come back with that state, [protected_area] redirects to
    the return-to address the session held before the login, or to [/]
    when it held none; the store is touched by the callback only. *)
Theorem login_returns_to_saved_page
    (st : State) (authorization_url s : string) (id_info : IdInfo) :
  let st1 := (userlogin authorization_url s st).1 in
  let st2 := (callback (Some s) id_info st1).1 in
  (userlogin authorization_url s st).2 = Ok (redirect authorization_url)
  ∧ db st1 = db st
  ∧ (callback (Some s) id_info st1).2 = Ok (redirect "/user/protected_area")
  ∧ logged_in_as (sub id_info) st2
  ∧ protected_area st2
    = (st2, Ok (redirect (default "/" (session st !! "url")))).
Proof.
  intros st1 st2.
  assert (E1 : userlogin authorization_url s st
               = ({| db := db st; session := <["state" := s]> (session st) |},
                  Ok (redirect authorization_url))) by done.
  assert (Hs : session st1 !! "state" = Some s).
  { subst st1. rewrite E1. simpl. by rewrite lookup_insert_eq. }
  destruct (callback_logs_in st1 s id_info Hs)
    as (Hr & Hin & _ & _ & Hurl & _).
  fold st2 in Hin, Hurl.
  split_and!; try done.
  rewrite (protected_area_logged_in st2 (sub id_info)) by done.
  rewrite Hurl. subst st1. rewrite E1. simpl.
  by rewrite lookup_insert_ne.
Qed.

(** X14: logging out empties the session and leaves the store alone;
    from then on [upvote_word] and [downvote_word] send the visitor to the
    login page and the pages behind [login_is_required] show the
    unauthorized page, all without writing anything. *)
Theorem logout_ends_the_session (st : State) :
  let st' := (userlogout st).1 in
  (userlogout st).2 = Ok (redirect "/user")
  ∧ db st' = db st
  ∧ session st' = ∅
  ∧ (∀ word_id, upvote_word word_id st' = (st', Ok (redirect "/user")))
  ∧ (∀ word_id, downvote_word word_id st' = (st', Ok (redirect "/user")))
  ∧ word_form st' = (st', Ok (render_template "unauthorized.html"))
  ∧ protected_area st' = (st', Ok (render_template "unauthorized.html")).
Proof.
  intros st'. split_and!; done.
Qed.

(** ** Reading routes *)

Lemma preserves_db_put_session (d : Db) (s : gmap string string) :
  preserves (λ st, db st = d) (put_session s).
Proof. by intros st H. Qed.

Ltac preserves_db_step :=
  first [ preserves_step | apply preserves_db_put_session ].

(** X15: the pages write nothing to the store: every GET route other than
    the login callback leaves [db.words] and [db.users] as they are,
    whether it answers or raises. *)
Theorem get_routes_leave_the_store
    (text_search : string → Word → bool) (r : Request) (st : State) :
  is_plain_get r = true → db (after text_search r st) = db st.
Proof.
  intros Hr. unfold after.
  assert (H : preserves (λ s, db s = db st) (handle text_search r));
    [|by apply H].
  destruct r; try discriminate Hr; simpl; unfold_handlers;
    repeat preserves_db_step.
Qed.

(** ** Pages of the home page *)

Lemma get_words_page (st : State) (page : option string) (n : Z) :
  viewer_known st → requested_page page = Some n → 1 ≤ n →
  ∃ pg : Page,
    (get_words page st).2 = Ok (render_home pg)
    ∧ doc <$> json_words pg
      = take 8 (drop (Z.to_nat ((n - 1) * 8))
                  (sort_match_approved (words (db st))))
    ∧ totalPages pg
      = math_ceil_div
          (Z.of_nat (length (filter is_approved (words (db st))))) 8.
Proof.
  intros [Hout|(gid & u & Hin & Hu)] Hpage Hn.
  - rewrite (get_words_logged_out st page n) by done.
    eexists. split; [done|]. simpl. by rewrite doc_plain.
  - rewrite (get_words_logged_in st page n gid u) by done.
    eexists. split; [done|]. simpl. by rewrite doc_annotate.
Qed.

(** X16: every approved word is on exactly the page its rank gives: the
    word at position [k] of the listing order is the entry [k mod 8] of
    page [k / 8 + 1] of [get_words]. *)
Theorem approved_word_has_its_page
    (st : State) (page : option string) (k : nat) (w : Word) :
  viewer_known st →
  sort_match_approved (words (db st)) !! k = Some w →
  requested_page page = Some (Z.of_nat (k / 8) + 1) →
  ∃ pg : Page,
    (get_words page st).2 = Ok (render_home pg)
    ∧ (doc <$> json_words pg) !! (k mod 8)%nat = Some w.
Proof.
  intros Hviewer Hk Hpage.
  destruct (get_words_page st page _ Hviewer Hpage ltac:(lia))
    as (pg & Hpg & Hdoc & _).
  exists pg. split; [done|]. rewrite Hdoc.
  assert (Hlt : (k mod 8 < 8)%nat) by (apply Nat.mod_upper_bound; lia).
  rewrite lookup_take_lt by done. rewrite lookup_drop.
  replace (Z.to_nat ((Z.of_nat (k / 8) + 1 - 1) * 8) + k mod 8)%nat with k;
    [done|].
  pose proof (Nat.div_mod k 8 ltac:(lia)) as Hk8.
  generalize dependent (k mod 8)%nat. generalize dependent (k / 8)%nat.
  intros. lia.
Qed.

(** X17: [totalPages] is the number of the last page that shows
    anything: page [n] of [get_words] has at most 8 entries, and it has at
    least one exactly when [n] is at most [totalPages]. *)
Theorem page_shown_iff_within_total
    (st : State) (page : option string) (n : Z) :
  viewer_known st → requested_page page = Some n → 1 ≤ n →
  ∃ pg : Page,
    (get_words page st).2 = Ok (render_home pg)
    ∧ (length (json_words pg) ≤ 8)%nat
    ∧ (json_words pg ≠ [] ↔ n ≤ totalPages pg).
Proof.
  intros Hviewer Hpage Hn.
  destruct (get_words_page st page n Hviewer Hpage Hn)
    as (pg & Hpg & Hdoc & Htotal).
  exists pg. split; [done|].
  assert (Hlen : length (json_words pg)
                 = (8 `min` (length (sort_match_approved (words (db st)))
                             - Z.to_nat ((n - 1) * 8)))%nat).
  { rewrite <-(length_fmap doc), Hdoc. by rewrite length_take, length_drop. }
  assert (HL : length (sort_match_approved (words (db st)))
               = length (filter is_approved (words (db st))))
    by apply Permutation_length, sort_match_approved_perm.
  rewrite HL in Hlen. split; [lia|].
  rewrite Htotal. unfold math_ceil_div.
  set (L := length (filter is_approved (words (db st)))) in *.
  pose proof (Z.div_mod (- Z.of_nat L) 8 ltac:(lia)) as Hdiv.
  pose proof (Z.mod_pos_bound (- Z.of_nat L) 8 ltac:(lia)) as Hmod.
  split.
  - intros Hne.
    assert (length (json_words pg) ≠ 0)%nat
      by (by destruct (json_words pg)).
    lia.
  - intros Hle Hnil.
    assert (length (json_words pg) = 0)%nat by (by rewrite Hnil).
    lia.
Qed.

(** ** Word ids as text *)

Lemma hex_digit_hex_char (d : N) : (d < 16)%N → hex_digit (hex_char d) = Some d.
Proof.
  intros Hd.
  destruct d as [|p]; [reflexivity|].
  do 4 (destruct p as [p|p|]; try reflexivity); lia.
Qed.

Lemma hex_string_length (k : nat) (v : N) (acc : string) :
  String.length (hex_string k v acc) = (k + String.length acc)%nat.
Proof.
  revert v acc. induction k as [|k IH]; intros v acc; simpl; [done|].
  rewrite IH. simpl. lia.
Qed.

Lemma hex_value_hex_string (k : nat) (v a : N) (acc : string) :
  hex_value a (hex_string k v acc)
  = hex_value (a * 16 ^ N.of_nat k + v mod 16 ^ N.of_nat k)%N acc.
Proof.
  revert v a acc. induction k as [|k IH]; intros v a acc.
  - simpl. f_equal. rewrite N.mod_1_r. lia.
  - cbn [hex_string]. rewrite IH. cbn [hex_value].
    rewrite hex_digit_hex_char by (apply N.mod_lt; lia).
    f_equal. rewrite Nat2N.inj_succ, N.pow_succ_r'.
    rewrite (N.Div0.mod_mul_r v 16). lia.
Qed.

Lemma parse_str_oid (oid : N) :
  (oid < 2 ^ 96)%N → parse_oid (str_oid oid) = Some oid.
Proof.
  intros Hoid. unfold parse_oid, str_oid.
  rewrite hex_string_length. cbn [String.length Nat.add].
  rewrite Nat.eqb_refl, hex_value_hex_string. cbn [hex_value].
  replace (16 ^ N.of_nat 24)%N with (2 ^ 96)%N by (by vm_compute).
  rewrite N.mod_small by exact Hoid. f_equal.
Qed.

(** X18: the text of an ObjectId reads back as that ObjectId.  For every
    id of 12 bytes, [str_oid] gives 24 characters and [parse_oid] of them
    is the id: the id a page shows for a word is one the vote and
    moderation handlers accept and resolve to that word. *)
Theorem str_oid_round_trip (oid : N) :
  (oid < 2 ^ 96)%N →
  String.length (str_oid oid) = 24%nat
  ∧ parse_oid (str_oid oid) = Some oid.
Proof.
  intros Hoid. split; [|by apply parse_str_oid].
  unfold str_oid. by rewrite hex_string_length.
Qed.

Lemma elem_of_annotated ups downs (l : list Word) (it : Item) :
  it ∈ annotate ups downs <$> l →
  upvote_status it = Some (bool_decide (str_oid (_id (doc it)) ∈ ups))
  ∧ downvote_status it = Some (bool_decide (str_oid (_id (doc it)) ∈ downs)).
Proof. intros (w & -> & _)%list_elem_of_fmap. done. Qed.

(** X19: the home page shows a logged-in viewer their own votes.  After
    the viewer upvotes a word through the id the page shows for it, every
    entry of [get_words] for that word carries [upvote_status] true; after
    they undo the upvote it carries false.  The [downvote_status] is not
    touched by either. *)
Theorem upvote_shows_on_home_page
    (st : State) (page : option string) (n : Z) (gid : string) (u : User)
    (oid : N) :
  logged_in_as gid st → find_user gid st = Some u →
  (oid < 2 ^ 96)%N →
  requested_page page = Some n → 1 ≤ n →
  let st1 := (upvote_word (str_oid oid) st).1 in
  let st2 := (undo_upvote (str_oid oid) st1).1 in
  (∃ pg, (get_words page st1).2 = Ok (render_home pg)
     ∧ ∀ it, it ∈ json_words pg → _id (doc it) = oid →
         upvote_status it = Some true
         ∧ downvote_status it
           = Some (bool_decide (str_oid oid ∈ downvotes u)))
  ∧ (∃ pg, (get_words page st2).2 = Ok (render_home pg)
       ∧ ∀ it, it ∈ json_words pg → _id (doc it) = oid →
           upvote_status it = Some false
           ∧ downvote_status it
             = Some (bool_decide (str_oid oid ∈ downvotes u))).
Proof.
  intros Hin Hu Hoid Hpage Hn st1 st2.
  pose proof (parse_str_oid oid Hoid) as Hparse.
  assert (E1 : st1 = vote_writes oid (inc_upvote 1) gid
                       (set_upvotes (addToSet (str_oid oid))) st)
    by by apply upvote_word_logged_in.
  assert (Hin1 : logged_in_as gid st1) by by rewrite E1.
  assert (Hu1 : find_user gid st1
                = Some (set_upvotes (addToSet (str_oid oid)) u)).
  { rewrite E1, find_user_vote_writes by done. by rewrite Hu. }
  assert (E2 : st2 = vote_writes oid (inc_upvote (-1)) gid
                       (set_upvotes (pull (str_oid oid))) st1)
    by by apply undo_upvote_logged_in.
  assert (Hin2 : logged_in_as gid st2) by by rewrite E2.
  assert (Hu2 : find_user gid st2
                = Some (set_upvotes (pull (str_oid oid))
                          (set_upvotes (addToSet (str_oid oid)) u))).
  { rewrite E2, find_user_vote_writes by done. by rewrite Hu1. }
  split.
  - rewrite (get_words_logged_in st1 page n gid _ Hin1 Hu1 Hpage Hn).
    eexists. split; [reflexivity|]. cbn [json_words].
    intros it [Hup Hdown]%elem_of_annotated Hid.
    rewrite Hup, Hdown, Hid. split; [|done].
    by rewrite bool_decide_eq_true_2 by apply addToSet_elem.
  - rewrite (get_words_logged_in st2 page n gid _ Hin2 Hu2 Hpage Hn).
    eexists. split; [reflexivity|]. cbn [json_words].
    intros it [Hup Hdown]%elem_of_annotated Hid.
    rewrite Hup, Hdown, Hid. split; [|done].
    by rewrite bool_decide_eq_false_2 by apply pull_not_elem.
Qed.

(** ** Search results *)

Lemma approved_matches_sorted ts q ws :
  StronglySorted by_votes (approved_matches ts q ws).
Proof. apply StronglySorted_merge_sort; apply _. Qed.

Lemma approved_matches_perm ts q ws :
  approved_matches ts q ws
  ≡ₚ filter (λ w, is_approved w ∧ ts (lower q) w) ws.
Proof. apply merge_sort_Permutation. Qed.

Lemma length_filter_and {A} (P Q : A → Prop)
    `{∀ x, Decision (P x)} `{∀ x, Decision (Q x)} (l : list A) :
  (length (filter (λ x, P x ∧ Q x) l) ≤ length (filter Q l))%nat.
Proof.
  induction l as [|x l IH]; [done|].
  rewrite !filter_cons.
  destruct (decide (P x ∧ Q x)) as [[_ HQ]|Hn].
  - rewrite decide_True by done. simpl. lia.
  - destruct (decide (Q x)); simpl; lia.
Qed.

(** X20: [search] shows approved words that match the query, best voted
    first.  For a page number of at least 1 it answers with the entries
    [2 (n - 1)] and [2 (n - 1) + 1] of the approved matching words in
    descending order of [upvote] and then [_id]; every entry is approved
    and matches the query in lower case, no entry carries vote marks, and
    neither the store nor the session is written. *)
Theorem search_lists_approved_matches
    (text_search : string → Word → bool) (st : State) (q : string)
    (page : option string) (n : Z) :
  requested_page page = Some n → 1 ≤ n →
  ∃ pg : Page,
    search text_search (Some q) page st = (st, Ok (render_home pg))
    ∧ doc <$> json_words pg
      = take 2 (drop (Z.to_nat ((n - 1) * 2))
                  (approved_matches text_search q (words (db st))))
    ∧ approved_matches text_search q (words (db st))
      ≡ₚ filter (λ w, is_approved w ∧ text_search (lower q) w)
           (words (db st))
    ∧ StronglySorted by_votes (doc <$> json_words pg)
    ∧ Forall (λ w, is_approved w ∧ text_search (lower q) w)
        (doc <$> json_words pg)
    ∧ Forall (λ it, upvote_status it = None ∧ downvote_status it = None)
        (json_words pg)
    ∧ pageNo pg = n.
Proof.
  intros Hpage Hn. rewrite (search_page text_search st q page n) by done.
  eexists. split; [reflexivity|]. cbn [json_words pageNo].
  rewrite doc_plain. fold (approved_matches text_search q (words (db st))).
  split_and!; try done.
  - apply approved_matches_perm.
  - apply StronglySorted_take_drop, approved_matches_sorted.
  - apply Forall_take, Forall_drop, Forall_forall.
    intros w Hw. rewrite approved_matches_perm in Hw.
    by apply list_elem_of_filter in Hw as [Hw _].
  - apply Forall_forall. by intros it (w & -> & _)%list_elem_of_fmap.
Qed.

(** X21: [search] never reports fewer pages than it has.  Its page count
    is taken over the matching words of every status, so a page that shows
    at least one word has a number of at most [totalPages]. *)
Theorem search_total_covers_pages
    (text_search : string → Word → bool) (st : State) (q : string)
    (page : option string) (n : Z) :
  requested_page page = Some n → 1 ≤ n →
  ∃ pg : Page,
    search text_search (Some q) page st = (st, Ok (render_home pg))
    ∧ totalPages pg
      = math_ceil_div
          (Z.of_nat (length (filter (λ w, text_search (lower q) w)
                               (words (db st))))) 2
    ∧ (json_words pg ≠ [] → n ≤ totalPages pg).
Proof.
  intros Hpage Hn. rewrite (search_page text_search st q page n) by done.
  eexists. split; [reflexivity|]. cbn [json_words totalPages].
  split; [done|]. intros Hne.
  assert (Hlen : (Z.to_nat ((n - 1) * 2)
                  < length (filter (λ w, is_approved w
                                         ∧ text_search (lower q) w)
                              (words (db st))))%nat).
  { destruct (decide (Z.to_nat ((n - 1) * 2)
                      < length (filter (λ w, is_approved w
                                             ∧ text_search (lower q) w)
                                  (words (db st))))%nat) as [|Hge];
      [done|].
    exfalso. apply Hne.
    rewrite drop_ge; [done|].
    rewrite (Permutation_length (merge_sort_Permutation _ _)). lia. }
  pose proof (length_filter_and is_approved
                (λ w, text_search (lower q) w) (words (db st))) as Hle.
  unfold math_ceil_div.
  set (L := length (filter (λ w, text_search (lower q) w) (words (db st))))
    in *.
  pose proof (Z.div_mod (- Z.of_nat L) 2 ltac:(lia)) as Hdiv.
  pose proof (Z.mod_pos_bound (- Z.of_nat L) 2 ltac:(lia)) as Hmod.
  lia.
Qed.

(** ** Moderation and the home page *)

(** X23: approval is what puts a word on the home page.  After
    [approve_word] with action [approve] on the id of a word of the store,
    the document under that id is the word with status [approved], its
    counters and content as before, and it is among the words [get_words]
    pages through; with action [decline] the document under that id is
    declined.  Users and session are not written. *)
Theorem approve_puts_word_on_home_page
    (st : State) (word_id : string) (oid : N) (w : Word) :
  parse_oid word_id = Some oid → find_word oid st = Some w →
  let st1 := (approve_word "approve" word_id st).1 in
  let st2 := (approve_word "decline" word_id st).1 in
  find_word oid st1 = Some (set_status approved w)
  ∧ set_status approved w ∈ sort_match_approved (words (db st1))
  ∧ upvote (set_status approved w) = upvote w
  ∧ content (set_status approved w) = content w
  ∧ users (db st1) = users (db st) ∧ session st1 = session st
  ∧ find_word oid st2 = Some (set_status declined w)
  ∧ users (db st2) = users (db st) ∧ session st2 = session st.
Proof.
  intros Hoid Hw st1 st2. subst st1 st2.
  rewrite !(approve_word_words _ _ _ oid) by done. simpl.
  assert (H1 : find_word oid
                 {| db := {| words := update_one (has_id oid)
                                        (set_status approved) (words (db st));
                             users := users (db st) |};
                    session := session st |}
               = Some (set_status approved w)).
  { unfold find_word in *. simpl. rewrite find_update_one_fmap by done.
    by rewrite Hw. }
  split_and!; try done.
  - rewrite sort_match_approved_perm. apply list_elem_of_filter.
    split; [done|]. by apply (find_Some_elem (has_id oid)).
  - unfold find_word in *. simpl. rewrite find_update_one_fmap by done.
    by rewrite Hw.
Qed.

(** X24: [approve_word] acts on the two actions it knows only: with any
    other action in the address it changes nothing, for a word that exists
    as for one that does not, and still answers with the redirect to the
    dashboard. *)
Theorem unknown_action_is_ignored
    (st : State) (action word_id : string) (oid : N) :
  parse_oid word_id = Some oid →
  action ≠ "approve" → action ≠ "decline" →
  approve_word action word_id st = (st, Ok (redirect "/adminDashboard")).
Proof.
  intros Hoid Ha Hd. rewrite (approve_word_words _ _ _ oid) by done.
  rewrite !bool_decide_eq_false_2 by done. by destruct st as [[ws us] s].
Qed.

(** ** What no request does *)

Lemma kept_update_one oid oid' w update ws :
  (∀ x, content (update x) = content x) →
  kept oid w ws → kept oid w (update_one (has_id oid') update ws).
Proof.
  intros Hc (w' & Hw' & Hsame). unfold kept.
  assert (Hid : ∀ x, has_id oid (update x) = has_id oid x).
  { intros x. unfold has_id.
    pose proof (f_equal snd (Hc x)) as E. simpl in E. by rewrite E. }
  destruct (find_update_one_other (has_id oid) (has_id oid') update ws w'
              Hid Hw') as [H|H].
  - by exists w'.
  - exists (update w'). split; [done|]. by rewrite Hc.
Qed.

Lemma kept_handle ts oid w r :
  preserves (on_words (kept oid w)) (handle ts r).
Proof.
  destruct r; simpl; unfold_handlers; repeat preserves_step.
  - apply preserves_words_insert_one. intros ws (w' & Hw' & Hsame).
    exists w'. split; [|done]. by apply find_app_Some.
  - apply preserves_words_update_one. intros ws.
    by apply kept_update_one.
  - apply preserves_words_update_one. intros ws.
    by apply kept_update_one.
  - apply preserves_words_update_one. intros ws.
    by apply kept_update_one.
  - apply preserves_words_update_one. intros ws.
    by apply kept_update_one.
  - apply preserves_words_update_one. intros ws.
    by apply kept_update_one.
  - apply preserves_words_update_one. intros ws.
    by apply kept_update_one.
Qed.

(** X25: no request deletes a word or edits its text.  Whatever requests
    follow, a word of the store stays findable under its id with the same
    word, definition, author, date and other descriptive fields; only its
    counters and its status can differ. *)
Theorem words_are_never_edited
    (text_search : string → Word → bool) (rs : list Request) (st : State)
    (oid : N) (w : Word) :
  find_word oid st = Some w →
  ∃ w', find_word oid (run text_search rs st) = Some w'
        ∧ content w' = content w.
Proof.
  intros Hw.
  assert (H : on_words (kept oid w) st) by (by exists w).
  clear Hw. revert st H.
  induction rs as [|r rs IH]; intros st H; [done|].
  simpl. apply IH. by apply kept_handle.
Qed.

Section PreservesUsers.
Context (J : list User → Prop).

Lemma users_preserves_put_session s : preserves (on_users J) (put_session s).
Proof. by intros st H. Qed.

Lemma users_preserves_words_update_one oid update :
  preserves (on_users J) (words_update_one oid update).
Proof. by intros st H. Qed.

Lemma users_preserves_words_insert_one json :
  preserves (on_users J) (words_insert_one json).
Proof.
  intros st H. unfold words_insert_one, mbind, M_bind, get_db.
  by destruct (existsb _ _).
Qed.

Lemma users_preserves_users_update_one gid update :
  (∀ us, J us → J (update_one (has_google_id gid) update us)) →
  preserves (on_users J) (users_update_one gid update).
Proof. intros Hup st H. by apply Hup. Qed.

Lemma users_preserves_callback args_state id_info :
  (∀ us, J us → J (users_after_login id_info us)) →
  preserves (on_users J) (callback args_state id_info).
Proof.
  intros Hlogin st H. unfold on_users in *.
  destruct (session st !! "state") as [s|] eqn:Hs.
  - destruct args_state as [a|].
    + destruct (decide (s = a)) as [<-|Hne].
      * rewrite (callback_result st s) by done. simpl. by apply Hlogin.
      * unfold callback. unfold_M. rewrite Hs. simpl.
        by rewrite bool_decide_eq_false_2.
    + unfold callback. unfold_M. by rewrite Hs.
  - unfold callback. unfold_M. by rewrite Hs.
Qed.
End PreservesUsers.

Ltac preserves_users_step :=
  first
    [ preserves_step
    | apply users_preserves_put_session
    | apply users_preserves_words_update_one
    | apply users_preserves_words_insert_one ].

Lemma users_handle (J : list User → Prop) ts r :
  (∀ id_info us, J us → J (users_after_login id_info us)) →
  (∀ gid oid us, J us →
     J (update_one (has_google_id gid) (push_words_author oid) us)) →
  (∀ gid x us, J us →
     J (update_one (has_google_id gid) (set_upvotes (addToSet x)) us)) →
  (∀ gid x us, J us →
     J (update_one (has_google_id gid) (set_upvotes (pull x)) us)) →
  (∀ gid x us, J us →
     J (update_one (has_google_id gid) (set_downvotes (addToSet x)) us)) →
  (∀ gid x us, J us →
     J (update_one (has_google_id gid) (set_downvotes (pull x)) us)) →
  preserves (on_users J) (handle ts r).
Proof.
  intros Hlogin Hpush Hup Hunup Hdown Hundown.
  destruct r; simpl;
    try (apply users_preserves_callback; by auto);
    unfold_handlers; repeat preserves_users_step;
    apply users_preserves_users_update_one; by auto.
Qed.

Lemma find_None_not_elem gid (us : list User) :
  List.find (has_google_id gid) us = None → gid ∉ google_id <$> us.
Proof.
  induction us as [|x us IH]; csimpl; [intros _; apply not_elem_of_nil|].
  unfold has_google_id at 1. case_bool_decide; [done|].
  intros Hnone. apply not_elem_of_cons. split; [done|]. by apply IH.
Qed.

Lemma one_user_per_id_update gid update us :
  (∀ u, google_id (update u) = google_id u) →
  one_user_per_id us →
  one_user_per_id (update_one (has_google_id gid) update us).
Proof. intros Hid. unfold one_user_per_id. by rewrite update_one_fmap. Qed.

(** X26: [db.users] never holds two documents for one [google_id]: the
    callback inserts a document only when it finds none for the identity,
    and no other handler inserts users or changes a [google_id], so the
    property holds after every sequence of requests if it held before. *)
Theorem one_document_per_user
    (text_search : string → Word → bool) (rs : list Request) (st : State) :
  one_user_per_id (users (db st)) →
  one_user_per_id (users (db (run text_search rs st))).
Proof.
  revert st. induction rs as [|r rs IH]; intros st H; [done|].
  simpl. apply IH.
  apply (users_handle one_user_per_id text_search r); try done;
    try (intros; by apply one_user_per_id_update).
  intros id_info us Hus. unfold users_after_login.
  destruct (List.find _ us) eqn:Hfind; [done|].
  unfold one_user_per_id in *. rewrite fmap_app. apply NoDup_app.
  split_and!; [done| |apply NoDup_singleton].
  intros g Hg Hnew. apply list_elem_of_singleton in Hnew. subst g.
  by apply (find_None_not_elem _ _ Hfind).
Qed.

Lemma votes_are_sets_update gid update us :
  (∀ u, NoDup (upvotes u) ∧ NoDup (downvotes u) →
        NoDup (upvotes (update u)) ∧ NoDup (downvotes (update u))) →
  votes_are_sets us →
  votes_are_sets (update_one (has_google_id gid) update us).
Proof. intros Hup. apply update_one_Forall. auto. Qed.

(** X27: the vote arrays are sets: starting from a store in which no
    user's [upvotes] or [downvotes] array holds an id twice, no sequence of
    requests produces one that does; a new user starts with both arrays
    empty. *)
Theorem vote_arrays_stay_sets
    (text_search : string → Word → bool) (rs : list Request) (st : State) :
  votes_are_sets (users (db st)) →
  votes_are_sets (users (db (run text_search rs st))).
Proof.
  revert st. induction rs as [|r rs IH]; intros st H; [done|].
  simpl. apply IH.
  apply (users_handle votes_are_sets text_search r); try done.
  - intros id_info us Hus. unfold users_after_login.
    destruct (List.find _ us); [done|].
    apply Forall_app. split; [done|].
    apply Forall_singleton. split; apply NoDup_nil_2.
  - intros. by apply votes_are_sets_update.
  - intros. apply votes_are_sets_update; [|done].
    intros u [Hu Hd]. split; [by apply addToSet_NoDup|done].
  - intros. apply votes_are_sets_update; [|done].
    intros u [Hu Hd]. split; [by apply pull_NoDup|done].
  - intros. apply votes_are_sets_update; [|done].
    intros u [Hu Hd]. split; [done|by apply addToSet_NoDup].
  - intros. apply votes_are_sets_update; [|done].
    intros u [Hu Hd]. split; [done|by apply pull_NoDup].
Qed.

(** ** Malformed word ids *)

Lemma hex_value_foreign (acc : N) (s : string) :
  has_foreign_char s = true → hex_value acc s = None.
Proof.
  revert acc. induction s as [|c s IH]; intros acc; simpl; [done|].
  unfold is_foreign. destruct (hex_digit c) as [d|]; simpl; [|done].
  apply IH.
Qed.

Lemma refused_parse_oid (word_id : string) :
  refused_by_ObjectId word_id → parse_oid word_id = None.
Proof.
  intros [Hlen|Hchar]; unfold parse_oid.
  - by rewrite (proj2 (Nat.eqb_neq _ _) Hlen).
  - destruct (String.length word_id =? 24)%nat; [|done].
    by apply hex_value_foreign.
Qed.

(** X28: a text that [ObjectId] refuses reaches no document: when the word
    id is not 24 characters long, or holds a character that is neither a
    hexadecimal digit nor a blank, the two undo handlers and
    [approve_word] raise [InvalidId] before the store is touched, and so do
    [upvote_word] and [downvote_word] for a logged-in user; store and
    session are as before in each case. *)
Theorem malformed_id_writes_nothing
    (st : State) (word_id action gid : string) :
  refused_by_ObjectId word_id →
  undo_upvote word_id st = (st, Raise InvalidId)
  ∧ undo_downvote word_id st = (st, Raise InvalidId)
  ∧ approve_word action word_id st = (st, Raise InvalidId)
  ∧ (logged_in_as gid st →
     upvote_word word_id st = (st, Raise InvalidId)
     ∧ downvote_word word_id st = (st, Raise InvalidId)).
Proof.
  intros Hoid%refused_parse_oid.
  unfold undo_upvote, undo_downvote, approve_word, upvote_word, downvote_word.
  unfold_M. rewrite Hoid. split_and!; try done.
  intros Hin. rewrite (session_contains_logged_in gid st Hin). done.
Qed.

(** ** A session without a user document *)

(** X29: the home page cannot be shown to a session whose user has no
    document in [db.users]: [get_words] raises [IndexError] on the first
    element of the empty search result, before the words are paged, and
    the store is as before. *)
Theorem get_words_needs_user_document
    (st : State) (page : option string) (n : Z) (gid : string) :
  logged_in_as gid st → find_user gid st = None →
  requested_page page = Some n →
  (get_words page st).2 = Raise IndexError
  ∧ db (get_words page st).1 = db st.
Proof.
  intros Hin Hu Hpage. red in Hin.
  pose proof (find_None_filter _ _ Hu) as Hnone.
  split; [|by rewrite get_words_state].
  unfold get_words, approved_page, skip_limit, int. unfold_M.
  destruct page as [p|]; simpl in *; simplify_eq/=;
    rewrite ?Hpage; simpl;
    repeat first
      [ rewrite lookup_insert_ne by done | rewrite Hin | rewrite Hnone
      | progress simpl ];
    done.
Qed.

(** ** The further properties at sample inputs *)

Lemma downvote_word_counts_and_records_witness :
  logged_in_as "g-asha" fresh_state
  ∧ downvote <$> find_word 1 (downvote_word sample_id fresh_state).1 = Some 1
  ∧ downvotes <$> find_user "g-asha" (downvote_word sample_id fresh_state).1
    = Some [sample_id].
Proof.
  pose proof (downvote_word_counts_and_records fresh_state sample_id "g-asha"
                1 (sample_word 1 0 0 approved) (sample_user "g-asha" [] [])
                eq_refl eq_refl eq_refl eq_refl)
    as (_ & H1 & _ & H2 & _).
  split_and!; [reflexivity | exact H1 | exact H2].
Defined.

Lemma vote_then_undo_restores_witness :
  logged_in_as "g-asha" fresh_state
  ∧ (undo_upvote sample_id (upvote_word sample_id fresh_state).1).1
    = fresh_state
  ∧ (undo_downvote sample_id (downvote_word sample_id fresh_state).1).1
    = fresh_state.
Proof.
  destruct (vote_then_undo_restores fresh_state sample_id "g-asha" 1
              eq_refl eq_refl) as [Hup Hdown].
  split_and!; [reflexivity | apply Hup | apply Hdown].
  - intros u Hu. vm_compute in Hu. injection Hu as <-. apply not_elem_of_nil.
  - intros u Hu. vm_compute in Hu. injection Hu as <-. apply not_elem_of_nil.
Defined.

Lemma undo_removes_vote_witness :
  find_user "g-asha" voted_state = Some (sample_user "g-asha" [sample_id] [])
  ∧ upvotes <$> find_user "g-asha" (undo_upvote sample_id voted_state).1
    = Some [].
Proof.
  split; [reflexivity|].
  apply (undo_removes_vote voted_state sample_id "g-asha" 1
           (sample_word 1 1 0 approved) (sample_user "g-asha" [sample_id] []));
    reflexivity.
Defined.

Lemma vote_on_absent_word_is_recorded_witness :
  find_word 2 fresh_state = None
  ∧ words (db (upvote_word absent_id fresh_state).1) = words (db fresh_state)
  ∧ upvotes <$> find_user "g-asha" (upvote_word absent_id fresh_state).1
    = Some [absent_id].
Proof.
  pose proof (vote_on_absent_word_is_recorded fresh_state absent_id "g-asha"
                2 (sample_user "g-asha" [] [])
                eq_refl eq_refl eq_refl eq_refl)
    as ((H1 & H2 & _) & _).
  split_and!; [reflexivity | exact H1 | exact H2].
Defined.


Lemma vote_without_return_address_witness :
  session no_url_state !! "url" = None
  ∧ (downvote_word sample_id no_url_state).2 = Raise (KeyError "url")
  ∧ downvote <$> find_word 1 (downvote_word sample_id no_url_state).1
    = Some 1
  ∧ downvotes <$> find_user "g-asha" (downvote_word sample_id no_url_state).1
    = Some [sample_id].
Proof.
  pose proof (vote_without_return_address no_url_state sample_id "g-asha" 1
                (sample_word 1 0 0 approved) (sample_user "g-asha" [] [])
                eq_refl eq_refl eq_refl eq_refl eq_refl)
    as (_ & (H1 & H2 & H3) & _).
  split_and!; [reflexivity | exact H1 | exact H2 | exact H3].
Defined.

Lemma postword_failure_writes_nothing_witness :
  (∅ : gmap string string) !! "word" = None
  ∧ db (postword ∅ 1700000000 7 author_state).1 = db author_state.
Proof.
  split; [reflexivity|].
  apply (postword_failure_writes_nothing author_state ∅ 1700000000 7).
  left. exists "word". split; [|reflexivity].
  unfold required_fields. apply elem_of_cons. by left.
Defined.

Lemma sample_submission_valid : valid_submission sample_form 7 author_state.
Proof.
  split_and!.
  - by apply (bool_decide_unpack _).
  - by eexists.
  - by eexists.
  - intros _. by eexists.
  - reflexivity.
Defined.

Lemma postword_back_reference_witness :
  valid_submission sample_form 7 author_state
  ∧ ∃ i : N,
      words_author
        <$> find_user "g-asha" (postword sample_form 1700000000 7 author_state).1
      = Some [i]
      ∧ i = 7%N.
Proof.
  split; [exact sample_submission_valid|].
  destruct (postword_back_reference author_state sample_form 1700000000 7
              "g-asha" (sample_user "g-asha" [] [])
              sample_submission_valid eq_refl eq_refl)
    as (i & Hi & _ & _ & Hnew & _).
  exists i. split; [exact Hi|].
  apply Hnew. by apply (bool_decide_unpack _).
Defined.

Lemma postword_then_dash_witness :
  valid_submission sample_form 7 author_state
  ∧ (dash (postword sample_form 1700000000 7 author_state).1).2
    = Ok (render_dashboard
            [submitted_word sample_form (session author_state) 1700000000 7]).
Proof.
  split; [exact sample_submission_valid|].
  apply (postword_then_dash author_state sample_form 1700000000 7
           sample_submission_valid).
Defined.

Lemma callback_logs_in_witness :
  session awaiting_callback !! "state" = Some "s-81"
  ∧ logged_in_as "g-ravi" (callback (Some "s-81") sample_identity
                             awaiting_callback).1
  ∧ is_Some (find_user "g-ravi"
               (callback (Some "s-81") sample_identity awaiting_callback).1).
Proof.
  pose proof (callback_logs_in awaiting_callback "s-81" sample_identity
                eq_refl)
    as (_ & H1 & _ & _ & _ & _ & _ & _ & _ & H2 & _).
  split_and!; [reflexivity | exact H1 | exact H2].
Defined.

Lemma get_routes_leave_the_store_witness :
  is_plain_get (GET_home (Some "2")) = true
  ∧ db (after definition_contains (GET_home (Some "2")) fresh_state)
    = db fresh_state.
Proof.
  split; [reflexivity|].
  apply (get_routes_leave_the_store definition_contains
           (GET_home (Some "2")) fresh_state). reflexivity.
Defined.

Lemma approved_word_has_its_page_witness :
  sort_match_approved (words (db ten_approved)) !! 9%nat
  = Some (sample_word 1 1 0 approved)
  ∧ ∃ pg : Page,
      (get_words (Some "2") ten_approved).2 = Ok (render_home pg)
      ∧ (doc <$> json_words pg) !! 1%nat = Some (sample_word 1 1 0 approved).
Proof.
  split; [reflexivity|].
  apply (approved_word_has_its_page ten_approved (Some "2") 9
           (sample_word 1 1 0 approved)).
  - left. reflexivity.
  - reflexivity.
  - reflexivity.
Defined.

Lemma page_shown_iff_within_total_witness :
  viewer_known ten_approved
  ∧ ∃ pg : Page,
      (get_words (Some "3") ten_approved).2 = Ok (render_home pg)
      ∧ (length (json_words pg) ≤ 8)%nat
      ∧ (json_words pg ≠ [] ↔ 3 ≤ totalPages pg).
Proof.
  assert (Hv : viewer_known ten_approved) by (left; reflexivity).
  split; [exact Hv|].
  apply (page_shown_iff_within_total ten_approved (Some "3") 3 Hv eq_refl).
  lia.
Defined.

Lemma str_oid_round_trip_witness :
  str_oid 255 = "0000000000000000000000ff"
  ∧ parse_oid (str_oid 255) = Some 255%N.
Proof.
  split; [reflexivity|].
  apply (str_oid_round_trip 255). reflexivity.
Defined.

Lemma upvote_shows_on_home_page_witness :
  find_user "g-asha" fresh_state = Some (sample_user "g-asha" [] [])
  ∧ ∃ pg, (get_words None (upvote_word (str_oid 1) fresh_state).1).2
          = Ok (render_home pg)
          ∧ ∀ it, it ∈ json_words pg → _id (doc it) = 1%N →
              upvote_status it = Some true
              ∧ downvote_status it = Some false.
Proof.
  split; [reflexivity|].
  apply (upvote_shows_on_home_page fresh_state None 1 "g-asha"
           (sample_user "g-asha" [] []) 1);
    [reflexivity | reflexivity | reflexivity | reflexivity | lia].
Defined.

Lemma search_lists_approved_matches_witness :
  requested_page None = Some 1
  ∧ ∃ pg : Page,
      search definition_contains (Some "Fix") None one_approved_match
      = (one_approved_match, Ok (render_home pg))
      ∧ doc <$> json_words pg = [defined_word 1 "a clever fix" 3 approved].
Proof.
  split; [reflexivity|].
  destruct (search_lists_approved_matches definition_contains
              one_approved_match "Fix" None 1 eq_refl ltac:(lia))
    as (pg & H1 & H2 & _).
  exists pg. split; [exact H1|]. rewrite H2. reflexivity.
Defined.

Lemma search_total_covers_pages_witness :
  requested_page None = Some 1
  ∧ ∃ pg : Page,
      search definition_contains (Some "Fix") None one_approved_match
      = (one_approved_match, Ok (render_home pg))
      ∧ totalPages pg = 2.
Proof.
  split; [reflexivity|].
  destruct (search_total_covers_pages definition_contains
              one_approved_match "Fix" None 1 eq_refl ltac:(lia))
    as (pg & H1 & H2 & _).
  exists pg. split; [exact H1|]. rewrite H2. reflexivity.
Defined.

Lemma approve_puts_word_on_home_page_witness :
  find_word 2 one_approved_match
  = Some (defined_word 2 "a quick fix" 0 pending)
  ∧ defined_word 2 "a quick fix" 0 approved
    ∈ sort_match_approved
        (words (db (approve_word "approve" absent_id one_approved_match).1)).
Proof.
  split; [reflexivity|].
  apply (approve_puts_word_on_home_page one_approved_match absent_id 2
           (defined_word 2 "a quick fix" 0 pending)); reflexivity.
Defined.

Lemma unknown_action_is_ignored_witness :
  parse_oid sample_id = Some 1%N
  ∧ approve_word "delete" sample_id fresh_state
    = (fresh_state, Ok (redirect "/adminDashboard")).
Proof.
  split; [reflexivity|].
  apply (unknown_action_is_ignored fresh_state "delete" sample_id 1);
    [reflexivity | discriminate | discriminate].
Defined.

Lemma words_are_never_edited_witness :
  find_word 1 fresh_state = Some (sample_word 1 0 0 approved)
  ∧ ∃ w',
      find_word 1
        (run definition_contains
           [POST_upvote sample_id; POST_adminDashboard "decline" sample_id;
            POST_postword sample_form 1700000000 7] fresh_state)
      = Some w'
      ∧ content w' = content (sample_word 1 0 0 approved).
Proof.
  split; [reflexivity|].
  apply (words_are_never_edited definition_contains
           [POST_upvote sample_id; POST_adminDashboard "decline" sample_id;
            POST_postword sample_form 1700000000 7]
           fresh_state 1 (sample_word 1 0 0 approved)). reflexivity.
Defined.

Lemma one_document_per_user_witness :
  one_user_per_id (users (db awaiting_callback))
  ∧ one_user_per_id
      (users (db (run definition_contains
                    [GET_user_callback (Some "s-81") sample_identity;
                     GET_user_callback (Some "s-81") sample_identity]
                    awaiting_callback))).
Proof.
  assert (H0 : one_user_per_id (users (db awaiting_callback)))
    by (by apply (bool_decide_unpack _)).
  split; [exact H0|].
  apply (one_document_per_user definition_contains
           [GET_user_callback (Some "s-81") sample_identity;
            GET_user_callback (Some "s-81") sample_identity]
           awaiting_callback H0).
Defined.

Lemma vote_arrays_stay_sets_witness :
  votes_are_sets (users (db fresh_state))
  ∧ votes_are_sets
      (users (db (run definition_contains
                    [POST_upvote sample_id; POST_upvote sample_id;
                     POST_downvote sample_id] fresh_state))).
Proof.
  assert (H0 : votes_are_sets (users (db fresh_state))).
  { apply Forall_singleton. split; apply NoDup_nil_2. }
  split; [exact H0|].
  apply (vote_arrays_stay_sets definition_contains
           [POST_upvote sample_id; POST_upvote sample_id;
            POST_downvote sample_id] fresh_state H0).
Defined.

Lemma malformed_id_writes_nothing_witness :
  refused_by_ObjectId "not-an-id"
  ∧ refused_by_ObjectId "00000000000000000000000g"
  ∧ undo_upvote "not-an-id" fresh_state = (fresh_state, Raise InvalidId)
  ∧ approve_word "approve" "00000000000000000000000g" fresh_state
    = (fresh_state, Raise InvalidId).
Proof.
  assert (H1 : refused_by_ObjectId "not-an-id") by (left; discriminate).
  assert (H2 : refused_by_ObjectId "00000000000000000000000g")
    by (right; reflexivity).
  pose proof (malformed_id_writes_nothing fresh_state "not-an-id" "approve"
                "g-asha" H1) as (Hundo & _).
  pose proof (malformed_id_writes_nothing fresh_state
                "00000000000000000000000g" "approve" "g-asha" H2)
    as (_ & _ & Happrove & _).
  split_and!; [exact H1 | exact H2 | exact Hundo | exact Happrove].
Defined.

Lemma get_words_needs_user_document_witness :
  find_user "g-asha" orphan_state = None
  ∧ (get_words None orphan_state).2 = Raise IndexError
  ∧ db (get_words None orphan_state).1 = db orphan_state.
Proof.
  split; [reflexivity|].
  apply (get_words_needs_user_document orphan_state None 1 "g-asha");
    reflexivity.
Defined.
